(** * GrGLProgramDesc: the key of a GL program descriptor

    A shallow embedding of [src/gpu/gl/GrGLProgramDesc.cpp] and the properties
    of the keys it builds.  Unsigned 32-bit values are integers of [Z] with the
    wrap-around written out, the key buffer is a list of bytes that is appended
    to and updated by index, and a debug build's assertions and the shifts C++
    leaves undefined are outcomes of their own. *)

From Stdlib Require Import ZArith Lia Bool List.
From stdpp Require Import base list.

Local Open Scope Z_scope.

Set Default Proof Using "Type".

(** ** Machine integers *)

(** A value converted to [uint32_t]. *)
Definition u32 (z : Z) : Z := z mod 2 ^ 32.

(** [SkToU16]: the value converted to [uint16_t]. *)
Definition SkToU16 (z : Z) : Z := z mod 2 ^ 16.

(** The four bytes of a 32-bit word in memory, lowest byte first. *)
Definition le32 (w : Z) : list Z :=
  [w mod 256; (w / 2 ^ 8) mod 256; (w / 2 ^ 16) mod 256; (w / 2 ^ 24) mod 256].

(** The value of a little-endian byte sequence. *)
Fixpoint le_value (bytes : list Z) : Z :=
  match bytes with
  | [] => 0
  | b :: rest => b + 256 * le_value rest
  end.


(** ** Outcomes of a debug build *)

(** The [SkASSERT]s of the file. *)
Inductive assertion : Type :=
  | TransformKeysOverlap      (* 0 == (totalKey & key) *)
  | NvprWithGeometryProcessor (* !optState.hasGeometryProcessor() *)
  | NoDstReadSource           (* dstCopy || dstReadInShaderSupport() *)
  | ZeroDstReadKey.           (* 0 != header->fDstReadKey *)

Inductive fault : Type :=
  | AssertionFailed (a : assertion)
  | UndefinedShift.           (* a shift by 32 bits or more *)

Inductive result (A : Type) : Type :=
  | Ok (a : A)
  | Abort (f : fault).

Arguments Ok {A} a.
Arguments Abort {A} f.

Definition bind {A B : Type} (m : result A) (k : A -> result B) : result B :=
  match m with
  | Ok a => k a
  | Abort f => Abort f
  end.

Notation "'let*' x ':=' m 'in' k" := (bind m (fun x => k))
  (at level 10, x name, m at level 100, k at level 200).

(** [x << s] with a result of type [uint32_t] (also [1 << t] of
    [gen_texture_key], converted when it is or-ed into the key): the bits
    shifted past bit 31 are lost; a shift by 32 or more is undefined.  The
    embedding ends such a run at the shift, as [UndefinedShift]: it stands for
    C++ giving the run no meaning, not for what a compiled program goes on to
    do, which may be a later assertion or a key. *)
Definition shl32 (x s : Z) : result Z :=
  if (0 <=? s) && (s <? 32) then Ok (u32 (Z.shiftl x s)) else Abort UndefinedShift.

(** ** Capabilities, textures and processors *)

Record GrGLCaps : Type := {
  textureSwizzleSupport : bool;
  textureRedSupport : bool;
  pathRenderingSupport : bool;
  dstReadInShaderSupport : bool
}.

(** [gpu->glCaps()] and [gpu->caps()] are the one capability object of the GPU. *)
Record GrGLGpu : Type := { glCaps : GrGLCaps }.

Definition caps (gpu : GrGLGpu) : GrGLCaps := glCaps gpu.

(** A pixel configuration, by the value of its enumerator. *)
Definition GrPixelConfig : Type := Z.

Record GrTexture : Type := { config : GrPixelConfig }.

Record GrTextureAccess : Type := {
  getTexture : GrTexture;
  swizzleMask : Z
}.

(** What [get_meta_key] reads of a [GrProcessor]. *)
Record GrProcessor : Type := {
  classID : Z;
  textureAccesses : list GrTextureAccess
}.

Definition numTextures (proc : GrProcessor) : nat := length (textureAccesses proc).

(** Modelled from the spec: [GrCoordSet] (GrCoordTransform.h is not under src/),
    the coordinates a transform starts from: local or device coordinates. *)
Inductive GrCoordSet : Type :=
  | kLocal_GrCoordSet
  | kDevice_GrCoordSet.

Definition GrCoordSet_eqb (a b : GrCoordSet) : bool :=
  match a, b with
  | kLocal_GrCoordSet, kLocal_GrCoordSet => true
  | kDevice_GrCoordSet, kDevice_GrCoordSet => true
  | _, _ => false
  end.

(** Modelled from the spec: [GrSLPrecision] (GrTypesPriv.h is not under src/), the
    precision levels; the static assertions of the source bound their values
    by [1 << kPrecisionBits]. *)
Inductive GrSLPrecision : Type :=
  | kLow_GrSLPrecision
  | kMedium_GrSLPrecision
  | kHigh_GrSLPrecision.

Definition GrSLPrecision_value (p : GrSLPrecision) : Z :=
  match p with
  | kLow_GrSLPrecision => 0
  | kMedium_GrSLPrecision => 1
  | kHigh_GrSLPrecision => 2
  end.

Record GrCoordTransform : Type := {
  sourceCoords : GrCoordSet;
  precision : GrSLPrecision
}.

(** A fragment processor: its [GrProcessor] part, the words its
    [getGLProcessorKey] adds to the key builder, and its transforms. *)
Record GrFragmentProcessor : Type := {
  fp_proc : GrProcessor;
  fp_getGLProcessorKey : GrGLCaps -> list Z;
  coordTransforms : list GrCoordTransform
}.

Definition numTransforms (fp : GrFragmentProcessor) : nat := length (coordTransforms fp).

(** A fragment stage: the processor, and whether its [t]-th transform needs a
    perspective matrix once the stage's own matrices are taken into account. *)
Record GrPendingFragmentStage : Type := {
  processor : GrFragmentProcessor;
  isPerspectiveCoordTransform : nat -> bool
}.

Record GrXferProcessor : Type := {
  xp_proc : GrProcessor;
  xp_getGLProcessorKey : GrGLCaps -> list Z
}.

(** ** The key builder *)

(** Modelled from the spec: [GrProcessorKeyBuilder] (GrProcessor.h is not under
    src/).  It appends 32-bit words to the key buffer it was made on ([fData]
    stands for the array behind the pointer, which is [desc->fKey]) and counts
    them; [size] is the number of bytes written into the buffer through it. *)
Record GrProcessorKeyBuilder : Type := {
  fData : list Z;
  fCount : Z
}.

Definition new_GrProcessorKeyBuilder (data : list Z) : GrProcessorKeyBuilder :=
  {| fData := data; fCount := 0 |}.

Definition add32 (v : Z) (b : GrProcessorKeyBuilder) : GrProcessorKeyBuilder :=
  {| fData := fData b ++ le32 v; fCount := fCount b + 1 |}.

(** [add32n(count)] hands out [count] fresh words, which the caller fills at
    once: the model takes the words written there. *)
Definition add32n (words : list Z) (b : GrProcessorKeyBuilder) : GrProcessorKeyBuilder :=
  {| fData := fData b ++ concat (map le32 words);
     fCount := fCount b + Z.of_nat (length words) |}.

Definition size (b : GrProcessorKeyBuilder) : Z := 4 * fCount b.

(** A processor's [getGLProcessorKey]: it adds its words one by one. *)
Definition emit_processor_key (words : list Z) (b : GrProcessorKeyBuilder)
  : GrProcessorKeyBuilder :=
  fold_left (fun b v => add32 v b) words b.

(** ** Constants of the file *)

Definition kMatrixTypeKeyBits : Z := 1.
Definition kMatrixTypeKeyMask : Z := Z.shiftl 1 kMatrixTypeKeyBits - 1.
Definition kPrecisionBits : Z := 2.
Definition kPrecisionShift : Z := kMatrixTypeKeyBits.
Definition kPositionCoords_Flag : Z := Z.shiftl 1 (kPrecisionShift + kPrecisionBits).
Definition kDeviceCoords_Flag : Z := kPositionCoords_Flag + kPositionCoords_Flag.
Definition kTransformKeyBits : Z := kMatrixTypeKeyBits + kPrecisionBits + 2.

Definition kNoPersp_MatrixType : Z := 0.
Definition kGeneral_MatrixType : Z := 1.

(** Modelled from the spec: [SK_MaxU16] (SkTypes.h is not under src/), the
    largest value of 16 bits. *)
Definition SK_MaxU16 : Z := 0xFFFF.

Definition kMetaKeyInvalidMask : Z := u32 (Z.lnot SK_MaxU16).

(** ** The descriptor and the pipeline state *)

Record GrProgramDesc : Type := { fKey : list Z }.

(** Modelled from the spec: the byte array of the key (SkTArray.h is not under
    src/).  [fKey.reset()] empties it. *)
Definition reset (key : list Z) : list Z := [].

(** Modelled from the spec: [fKey.push_back_n(n)] reserves [n] more bytes and
    leaves them uninitialised; [uninit] stands for what the memory happens to
    hold. *)
Definition push_back_n (n : nat) (uninit : nat -> Z) (key : list Z) : list Z :=
  key ++ map uninit (seq 0 n).

(** [memset(key + off, v, n)]. *)
Definition memset (off : nat) (v : Z) (n : nat) (key : list Z) : list Z :=
  list_inserts off (replicate n (v mod 256)) key.

(** A store to a one-byte field at offset [off]. *)
Definition store8 (off : nat) (v : Z) (key : list Z) : list Z :=
  <[off := v mod 256]> key.

Definition sk_assert (cond : bool) (a : assertion) : result unit :=
  if cond then Ok tt else Abort (AssertionFailed a).

Record DescInfo : Type := {
  fRequiresLocalCoordAttrib : bool;
  fReadsDst : bool;
  fReadsFragPosition : bool
}.

Record GrDeviceCoordTexture : Type := {
  texture : GrTexture;
  offset : Z * Z
}.

(** Modelled from the spec: the layout of [GLKeyHeader] (GrProgramDesc.h and
    GrGLProgramDesc.h are not under src/): the flag, the two encodings and the
    two counts are small values of one byte each, at these offsets from the
    start of the header. *)
Record GLKeyHeader_layout : Type := {
  at_fUseNvpr : nat;
  at_fDstReadKey : nat;
  at_fFragPosKey : nat;
  at_fColorEffectCnt : nat;
  at_fCoverageEffectCnt : nat
}.

Definition header_fields (h : GLKeyHeader_layout) : list nat :=
  [at_fUseNvpr h; at_fDstReadKey h; at_fFragPosKey h;
   at_fColorEffectCnt h; at_fCoverageEffectCnt h].

(** A draw type, by the value of its enumerator (GrGpu.h is not under src/). *)
Definition DrawType : Type := Z.

(** Modelled from the spec: a render target, of which the key builder knows the
    identity only. *)
Record GrRenderTarget : Type := { renderTargetID : Z }.

(** Modelled from the spec: the batch tracker of the primitive processor, an opaque
    block of data that only the processor reads. *)
Record GrBatchTracker : Type := { batchData : list Z }.

Record GrPrimitiveProcessor : Type := {
  pp_proc : GrProcessor;
  pp_getGLProcessorKey : GrBatchTracker -> GrGLCaps -> list Z
}.

Record GrOptDrawState : Type := {
  getPrimitiveProcessor : GrPrimitiveProcessor;
  getBatchTracker : GrBatchTracker;
  fragmentStages : list GrPendingFragmentStage;
  getXferProcessor : GrXferProcessor;
  hasGeometryProcessor : bool;
  getDstCopy : option GrDeviceCoordTexture;
  getRenderTarget : GrRenderTarget;
  numColorStages : Z;
  numCoverageStages : Z
}.

(** ** An instance of the collaborators, and sample pipelines

    The values the examples below are run on: a little-endian build with the
    alpha flag on bit 3, two words (length and checksum) before a header of
    eight bytes, and a [finalize] that fills these two words from the rest of
    the key. *)

Definition demo_kA : Z := 8.
Definition demo_kRGB : Z := 7.

Definition demo_ComponentMask (cfg : GrPixelConfig) : Z :=
  if cfg =? 1 then 8 else 15.

Definition demo_layout : GLKeyHeader_layout :=
  {| at_fUseNvpr := 4; at_fDstReadKey := 0; at_fFragPosKey := 1;
     at_fColorEffectCnt := 2; at_fCoverageEffectCnt := 3 |}.

Definition demo_IsPathRendering (d : DrawType) : bool := (d =? 4) || (d =? 5).

Definition demo_KeyForDstRead (t : option GrTexture) (c : GrGLCaps) : Z :=
  match t with
  | Some tex => if config tex =? 1 then 3 else 1
  | None => 1
  end.

Definition demo_KeyForFragmentPosition (rt : GrRenderTarget) (c : GrGLCaps) : Z :=
  if renderTargetID rt =? 0 then 1 else 2.

Definition demo_checksum (bytes : list Z) : Z := fold_left Z.add bytes 0.

Definition demo_finalize (key : list Z) : list Z :=
  le32 (Z.of_nat (length key)) ++ le32 (demo_checksum (drop 8 key)) ++ drop 8 key.

Definition demo_caps : GrGLCaps :=
  {| textureSwizzleSupport := false; textureRedSupport := true;
     pathRenderingSupport := true; dstReadInShaderSupport := false |}.

Definition demo_gpu : GrGLGpu := {| glCaps := demo_caps |}.

Definition demo_uninit (i : nat) : Z := 0xAA.

Definition no_textures (id : Z) : GrProcessor :=
  {| classID := id; textureAccesses := [] |}.

Definition demo_primProc : GrPrimitiveProcessor :=
  {| pp_proc := no_textures 2; pp_getGLProcessorKey := fun _ _ => [] |}.

Definition demo_xp : GrXferProcessor :=
  {| xp_proc := no_textures 1; xp_getGLProcessorKey := fun _ => [] |}.

(** A stage of class [id] whose private key is one zero word, with the given
    transforms, none of them in perspective. *)
Definition demo_stage (id : Z) (transforms : list GrCoordTransform)
  : GrPendingFragmentStage :=
  {| processor := {| fp_proc := no_textures id;
                     fp_getGLProcessorKey := fun _ => [0];
                     coordTransforms := transforms |};
     isPerspectiveCoordTransform := fun _ => false |}.

Definition local_low : GrCoordTransform :=
  {| sourceCoords := kLocal_GrCoordSet; precision := kLow_GrSLPrecision |}.

Definition device_high : GrCoordTransform :=
  {| sourceCoords := kDevice_GrCoordSet; precision := kHigh_GrSLPrecision |}.

(** The pipeline of the end-to-end example: one fragment stage of class 3 with
    a private key of four zero bytes and one local transform, and a transfer
    stage of class 1 with an empty private key. *)
Definition demo_optState : GrOptDrawState :=
  {| getPrimitiveProcessor := demo_primProc;
     getBatchTracker := {| batchData := [] |};
     fragmentStages := [demo_stage 3 [local_low]];
     getXferProcessor := demo_xp;
     hasGeometryProcessor := false;
     getDstCopy := None;
     getRenderTarget := {| renderTargetID := 0 |};
     numColorStages := 1;
     numCoverageStages := 0 |}.

Definition demo_descInfo : DescInfo :=
  {| fRequiresLocalCoordAttrib := false; fReadsDst := false;
     fReadsFragPosition := false |}.

(** The same configuration as [demo_optState] in other clothes: another batch
    tracker, a stage that answers differently for transforms it does not
    have. *)
Definition demo_optState_twin : GrOptDrawState :=
  {| getPrimitiveProcessor := demo_primProc;
     getBatchTracker := {| batchData := [7; 7] |};
     fragmentStages :=
       [{| processor := processor (demo_stage 3 [local_low]);
           isPerspectiveCoordTransform := fun t => Nat.leb 1 t |}];
     getXferProcessor := demo_xp;
     hasGeometryProcessor := false;
     getDstCopy := None;
     getRenderTarget := {| renderTargetID := 0 |};
     numColorStages := 1;
     numCoverageStages := 0 |}.

(** A pipeline whose primitive processor reads the given textures. *)
Definition demo_textured (accesses : list GrTextureAccess) : GrOptDrawState :=
  {| getPrimitiveProcessor :=
       {| pp_proc := {| classID := 2; textureAccesses := accesses |};
          pp_getGLProcessorKey := fun _ _ => [] |};
     getBatchTracker := {| batchData := [] |};
     fragmentStages := [demo_stage 3 [local_low]];
     getXferProcessor := demo_xp;
     hasGeometryProcessor := false;
     getDstCopy := Some {| texture := {| config := 6 |}; offset := (0, 0) |};
     getRenderTarget := {| renderTargetID := 1 |};
     numColorStages := 1;
     numCoverageStages := 0 |}.

(** An alpha-only texture read through an alpha swizzle, and a texture of four
    channels read through all of them. *)
Definition alpha_access : GrTextureAccess :=
  {| getTexture := {| config := 1 |}; swizzleMask := 8 |}.

Definition rgba_access : GrTextureAccess :=
  {| getTexture := {| config := 6 |}; swizzleMask := 15 |}.

Definition demo_caps_swizzle : GrGLCaps :=
  {| textureSwizzleSupport := true; textureRedSupport := true;
     pathRenderingSupport := true; dstReadInShaderSupport := false |}.

Definition demo_gpu_swizzle : GrGLGpu := {| glCaps := demo_caps_swizzle |}.

Definition demo_descInfo_reads : DescInfo :=
  {| fRequiresLocalCoordAttrib := false; fReadsDst := true;
     fReadsFragPosition := true |}.

(** A pipeline whose fragment stage has a class identity of 17 bits. *)
Definition demo_optState_wide_class : GrOptDrawState :=
  {| getPrimitiveProcessor := demo_primProc;
     getBatchTracker := {| batchData := [] |};
     fragmentStages := [demo_stage 0x10000 [local_low]];
     getXferProcessor := demo_xp;
     hasGeometryProcessor := false;
     getDstCopy := None;
     getRenderTarget := {| renderTargetID := 0 |};
     numColorStages := 1;
     numCoverageStages := 0 |}.

(** A processor that reads an alpha-only texture and then one of four
    channels. *)
Definition demo_two_textures : GrProcessor :=
  {| classID := 2; textureAccesses := [alpha_access; rgba_access] |}.

(** The sample pipeline with a device transform in place of the local one. *)
Definition demo_optState_device : GrOptDrawState :=
  {| getPrimitiveProcessor := demo_primProc;
     getBatchTracker := {| batchData := [] |};
     fragmentStages := [demo_stage 3 [device_high]];
     getXferProcessor := demo_xp;
     hasGeometryProcessor := false;
     getDstCopy := None;
     getRenderTarget := {| renderTargetID := 0 |};
     numColorStages := 1;
     numCoverageStages := 0 |}.

(** The sample description with explicit local coordinates. *)
Definition demo_descInfo_local : DescInfo :=
  {| fRequiresLocalCoordAttrib := true; fReadsDst := false;
     fReadsFragPosition := false |}.

(** The sample pipeline with a geometry processor, a copy of the destination
    and another render target. *)
Definition demo_optState_unread : GrOptDrawState :=
  {| getPrimitiveProcessor := demo_primProc;
     getBatchTracker := {| batchData := [] |};
     fragmentStages := [demo_stage 3 [local_low]];
     getXferProcessor := demo_xp;
     hasGeometryProcessor := true;
     getDstCopy := Some {| texture := {| config := 1 |}; offset := (2, 3) |};
     getRenderTarget := {| renderTargetID := 7 |};
     numColorStages := 1;
     numCoverageStages := 0 |}.

Section Collaborators.

(** What the file uses and does not define: the colour component flags and the
    component mask of a pixel configuration (GrColor.h, GrTypes.h), the offsets
    of the key's zones and the header's layout (GrProgramDesc.h; a static
    assertion of [Build] makes [kProcessorKeysOffset] a multiple of 4), the
    draw types (GrGpu.h), the two header encodings of the fragment shader
    builder, and [finalize].  What the properties below assume of them is
    stated where it is first needed. *)
Variable kA_GrColorComponentFlag : Z.
Variable kRGB_GrColorComponentFlags : Z.
Variable GrPixelConfigComponentMask : GrPixelConfig -> Z.

Variable kHeaderOffset : nat.
Variable kHeaderSize : nat.
Variable kProcessorKeysOffset : nat.
Variable layout : GLKeyHeader_layout.

Variable IsPathRenderingDrawType : DrawType -> bool.
Variable KeyForDstRead : option GrTexture -> GrGLCaps -> Z.
Variable KeyForFragmentPosition : GrRenderTarget -> GrGLCaps -> Z.
Variable finalize : list Z -> list Z.

(** ** [swizzle_requires_alpha_remapping] *)

Definition swizzle_requires_alpha_remapping (caps : GrGLCaps)
    (configComponentMask swizzleComponentMask : Z) : bool :=
  if textureSwizzleSupport caps then false
  else if kA_GrColorComponentFlag =? configComponentMask then
    if textureRedSupport caps
       && negb (Z.land kA_GrColorComponentFlag swizzleComponentMask =? 0)
    then true
    else if negb (Z.land kRGB_GrColorComponentFlags swizzleComponentMask =? 0)
    then true
    else false
  else false.

(** ** [gen_transform_key] *)

(** The body of the loop up to the shift: the key of transform [t]. *)
Definition coord_transform_key (stage : GrPendingFragmentStage)
    (useExplicitLocalCoords : bool) (t : nat) (coordTransform : GrCoordTransform) : Z :=
  let key := 0 in
  let key :=
    if isPerspectiveCoordTransform stage t then Z.lor key kGeneral_MatrixType
    else Z.lor key kNoPersp_MatrixType in
  let key :=
    if GrCoordSet_eqb kLocal_GrCoordSet (sourceCoords coordTransform)
       && negb useExplicitLocalCoords
    then Z.lor key kPositionCoords_Flag
    else if GrCoordSet_eqb kDevice_GrCoordSet (sourceCoords coordTransform)
    then Z.lor key kDeviceCoords_Flag
    else key in
  Z.lor key (Z.shiftl (GrSLPrecision_value (precision coordTransform)) kPrecisionShift).

(** The loop from transform [t] on, over the transforms still to come. *)
Fixpoint gen_transform_key_loop (stage : GrPendingFragmentStage)
    (useExplicitLocalCoords : bool) (transforms : list GrCoordTransform)
    (t : nat) (totalKey : Z) : result Z :=
  match transforms with
  | [] => Ok totalKey
  | coordTransform :: rest =>
      let key := coord_transform_key stage useExplicitLocalCoords t coordTransform in
      let* key := shl32 key (kTransformKeyBits * Z.of_nat t) in
      let* _ := sk_assert (Z.land totalKey key =? 0) TransformKeysOverlap in
      gen_transform_key_loop stage useExplicitLocalCoords rest (S t) (Z.lor totalKey key)
  end.

Definition gen_transform_key (stage : GrPendingFragmentStage)
    (useExplicitLocalCoords : bool) : result Z :=
  gen_transform_key_loop stage useExplicitLocalCoords
    (coordTransforms (processor stage)) 0 0.

(** ** [gen_texture_key] *)

Fixpoint gen_texture_key_loop (caps : GrGLCaps) (accesses : list GrTextureAccess)
    (t : nat) (key : Z) : result Z :=
  match accesses with
  | [] => Ok key
  | access :: rest =>
      let configComponentMask := GrPixelConfigComponentMask (config (getTexture access)) in
      if swizzle_requires_alpha_remapping caps configComponentMask (swizzleMask access)
      then
        let* bit := shl32 1 (Z.of_nat t) in
        gen_texture_key_loop caps rest (S t) (Z.lor key bit)
      else gen_texture_key_loop caps rest (S t) key
  end.

Definition gen_texture_key (proc : GrProcessor) (caps : GrGLCaps) : result Z :=
  gen_texture_key_loop caps (textureAccesses proc) 0 0.

(** ** [get_meta_key] *)

(** The result is the returned flag and the builder as the call leaves it. *)
Definition get_meta_key (proc : GrProcessor) (caps : GrGLCaps) (transformKey : Z)
    (b : GrProcessorKeyBuilder) : result (bool * GrProcessorKeyBuilder) :=
  let processorKeySize := size b in
  let* textureKey := gen_texture_key proc caps in
  let classID := classID proc in
  if negb (Z.land (Z.lor (Z.lor textureKey transformKey) classID) kMetaKeyInvalidMask =? 0)
  then Ok (false, b)
  else if SK_MaxU16 <? processorKeySize
  then Ok (false, b)
  else
    let key0 := u32 (Z.lor (Z.shiftl textureKey 16) transformKey) in
    let key1 := u32 (Z.lor (Z.shiftl classID 16) (SkToU16 processorKeySize)) in
    Ok (true, add32n [key0; key1] b).

(** ** [GrGLProgramDescBuilder::Build] *)

(** The loop over the fragment stages: whether every meta-key fitted, and the
    builder as the loop leaves it. *)
Fixpoint fragment_stage_keys (stages : list GrPendingFragmentStage) (caps : GrGLCaps)
    (requiresLocalCoordAttrib : bool) (b : GrProcessorKeyBuilder)
  : result (bool * GrProcessorKeyBuilder) :=
  match stages with
  | [] => Ok (true, b)
  | fps :: rest =>
      let fp := processor fps in
      let b := emit_processor_key (fp_getGLProcessorKey fp caps) b in
      let* transformKey := gen_transform_key fps requiresLocalCoordAttrib in
      let* r := get_meta_key (fp_proc fp) caps transformKey b in
      if negb (fst r) then Ok (false, snd r)
      else fragment_stage_keys rest caps requiresLocalCoordAttrib (snd r)
  end.

(** The statements of [Build] from the header pointer on, [header] being the
    offset in the key that the pointer stands at. *)
Definition write_header (header : nat) (optState : GrOptDrawState) (descInfo : DescInfo)
    (drawType : DrawType) (gpu : GrGLGpu) (key : list Z) : result (list Z) :=
  let field (at_field : GLKeyHeader_layout -> nat) := (header + at_field layout)%nat in
  let key := memset header 0 kHeaderSize key in
  let isPathRendering := IsPathRenderingDrawType drawType in
  let* key :=
    if pathRenderingSupport (caps gpu) && isPathRendering then
      let key := store8 (field at_fUseNvpr) 1 key in
      let* _ := sk_assert (negb (hasGeometryProcessor optState)) NvprWithGeometryProcessor in
      Ok key
    else Ok (store8 (field at_fUseNvpr) 0 key) in
  let* key :=
    if fReadsDst descInfo then
      let dstCopy := getDstCopy optState in
      let* _ := sk_assert (bool_decide (is_Some dstCopy) || dstReadInShaderSupport (caps gpu))
                          NoDstReadSource in
      let dstCopyTexture := option_map texture dstCopy in
      let key := store8 (field at_fDstReadKey) (KeyForDstRead dstCopyTexture (glCaps gpu)) key in
      let* _ := sk_assert (negb (default 0 (key !! field at_fDstReadKey) =? 0)) ZeroDstReadKey in
      Ok key
    else Ok (store8 (field at_fDstReadKey) 0 key) in
  let key :=
    if fReadsFragPosition descInfo then
      store8 (field at_fFragPosKey)
             (KeyForFragmentPosition (getRenderTarget optState) (glCaps gpu)) key
    else store8 (field at_fFragPosKey) 0 key in
  let key := store8 (field at_fColorEffectCnt) (numColorStages optState) key in
  let key := store8 (field at_fCoverageEffectCnt) (numCoverageStages optState) key in
  Ok key.

(** The result is the returned flag and the descriptor as the call leaves it. *)
Definition Build (optState : GrOptDrawState) (descInfo : DescInfo) (drawType : DrawType)
    (gpu : GrGLGpu) (uninit : nat -> Z) (desc : GrProgramDesc)
  : result (bool * GrProgramDesc) :=
  let requiresLocalCoordAttrib := fRequiresLocalCoordAttrib descInfo in
  let key := push_back_n kProcessorKeysOffset uninit (reset (fKey desc)) in
  let b := new_GrProcessorKeyBuilder key in
  let primProc := getPrimitiveProcessor optState in
  let b := emit_processor_key
             (pp_getGLProcessorKey primProc (getBatchTracker optState) (glCaps gpu)) b in
  let* r := get_meta_key (pp_proc primProc) (glCaps gpu) 0 b in
  if negb (fst r) then Ok (false, {| fKey := reset (fData (snd r)) |}) else
  let* r := fragment_stage_keys (fragmentStages optState) (glCaps gpu)
              requiresLocalCoordAttrib (snd r) in
  if negb (fst r) then Ok (false, {| fKey := reset (fData (snd r)) |}) else
  let xp := getXferProcessor optState in
  let b := emit_processor_key (xp_getGLProcessorKey xp (glCaps gpu)) (snd r) in
  let* r := get_meta_key (xp_proc xp) (glCaps gpu) 0 b in
  if negb (fst r) then Ok (false, {| fKey := reset (fData (snd r)) |}) else
  let header := kHeaderOffset in
  let* key := write_header header optState descInfo drawType gpu (fData (snd r)) in
  Ok (true, {| fKey := finalize key |}).

(** ** Vocabulary of the properties *)

(** The key of a stage's transforms as a number in base [2 ^ kTransformKeyBits],
    the key of transform [t] being digit [t]. *)
Fixpoint packed_transform_keys (stage : GrPendingFragmentStage)
    (useExplicitLocalCoords : bool) (transforms : list GrCoordTransform) (t : nat) : Z :=
  match transforms with
  | [] => 0
  | coordTransform :: rest =>
      coord_transform_key stage useExplicitLocalCoords t coordTransform
      + 2 ^ kTransformKeyBits
        * packed_transform_keys stage useExplicitLocalCoords rest (S t)
  end.

(** What the iterations from [t] on add to the total: each key shifted to its
    place and cut to 32 bits. *)
Fixpoint shifted_transform_keys (stage : GrPendingFragmentStage)
    (useExplicitLocalCoords : bool) (transforms : list GrCoordTransform) (t : nat) : Z :=
  match transforms with
  | [] => 0
  | coordTransform :: rest =>
      u32 (Z.shiftl (coord_transform_key stage useExplicitLocalCoords t coordTransform)
                    (kTransformKeyBits * Z.of_nat t))
      + shifted_transform_keys stage useExplicitLocalCoords rest (S t)
  end.

(** The field of transform [t], read back from a transform key. *)
Definition transform_key_field (key : Z) (t : nat) : Z :=
  Z.land (Z.shiftr key (kTransformKeyBits * Z.of_nat t)) (2 ^ kTransformKeyBits - 1).

(** The key of transform [t] at its place in the total, all bits kept. *)
Definition placed_transform_key (stage : GrPendingFragmentStage)
    (useExplicitLocalCoords : bool) (t : nat) (coordTransform : GrCoordTransform) : Z :=
  Z.shiftl (coord_transform_key stage useExplicitLocalCoords t coordTransform)
           (kTransformKeyBits * Z.of_nat t).

(** The placed keys of the transforms from [t] on, combined by bitwise or. *)
Fixpoint ored_transform_keys (stage : GrPendingFragmentStage)
    (useExplicitLocalCoords : bool) (transforms : list GrCoordTransform) (t : nat) : Z :=
  match transforms with
  | [] => 0
  | coordTransform :: rest =>
      Z.lor (placed_transform_key stage useExplicitLocalCoords t coordTransform)
            (ored_transform_keys stage useExplicitLocalCoords rest (S t))
  end.

(** The builder [b] over a buffer that holds [front] before what [b]'s holds. *)
Definition prefixed (front : list Z) (b : GrProcessorKeyBuilder) : GrProcessorKeyBuilder :=
  {| fData := front ++ fData b; fCount := fCount b |}.

(** The processor keys of a pipeline: what [Build] does between reserving the
    header and writing it, on a builder over an empty buffer. *)
Definition processor_keys (optState : GrOptDrawState) (descInfo : DescInfo)
    (gpu : GrGLGpu) : result (bool * GrProcessorKeyBuilder) :=
  let b := new_GrProcessorKeyBuilder [] in
  let primProc := getPrimitiveProcessor optState in
  let b := emit_processor_key
             (pp_getGLProcessorKey primProc (getBatchTracker optState) (glCaps gpu)) b in
  let* r := get_meta_key (pp_proc primProc) (glCaps gpu) 0 b in
  if negb (fst r) then Ok (false, snd r) else
  let* r := fragment_stage_keys (fragmentStages optState) (glCaps gpu)
              (fRequiresLocalCoordAttrib descInfo) (snd r) in
  if negb (fst r) then Ok (false, snd r) else
  let xp := getXferProcessor optState in
  let b := emit_processor_key (xp_getGLProcessorKey xp (glCaps gpu)) (snd r) in
  get_meta_key (xp_proc xp) (glCaps gpu) 0 b.

(** The bytes of the header: what the header statements of [Build] write, on a
    header of their own. *)
Definition header_image (optState : GrOptDrawState) (descInfo : DescInfo)
    (drawType : DrawType) (gpu : GrGLGpu) : result (list Z) :=
  write_header 0 optState descInfo drawType gpu (replicate kHeaderSize 0).

(** What the key builder reads of a texture access: the component mask of the
    texture's configuration and the swizzle mask. *)
Definition texture_configuration (access : GrTextureAccess) : Z * Z :=
  (GrPixelConfigComponentMask (config (getTexture access)), swizzleMask access).

(** Two processors of the same class with the same texture configurations. *)
Definition same_processor (p1 p2 : GrProcessor) : Prop :=
  classID p1 = classID p2
  /\ map texture_configuration (textureAccesses p1)
     = map texture_configuration (textureAccesses p2).

(** No texture access of the processor needs a remap in the shader. *)
Definition no_remap (caps : GrGLCaps) (proc : GrProcessor) : Prop :=
  Forall (fun access =>
            swizzle_requires_alpha_remapping caps
              (GrPixelConfigComponentMask (config (getTexture access)))
              (swizzleMask access) = false)
         (textureAccesses proc).

(** Two processors of the same class, whatever their textures, none of which
    needs a remap. *)
Definition same_but_textures (caps : GrGLCaps) (p1 p2 : GrProcessor) : Prop :=
  classID p1 = classID p2 /\ no_remap caps p1 /\ no_remap caps p2.

(** Two processors that [get_meta_key] cannot tell apart. *)
Definition encoded_alike (caps : GrGLCaps) (p1 p2 : GrProcessor) : Prop :=
  classID p1 = classID p2 /\ gen_texture_key p1 caps = gen_texture_key p2 caps.

(** Two fragment stages with processors related by [R], the same private key
    and the same transforms. *)
Definition same_fragment_stage (R : GrProcessor -> GrProcessor -> Prop)
    (caps : GrGLCaps) (s1 s2 : GrPendingFragmentStage) : Prop :=
  R (fp_proc (processor s1)) (fp_proc (processor s2))
  /\ fp_getGLProcessorKey (processor s1) caps = fp_getGLProcessorKey (processor s2) caps
  /\ coordTransforms (processor s1) = coordTransforms (processor s2)
  /\ forall t : nat,
       (t < numTransforms (processor s1))%nat ->
       isPerspectiveCoordTransform s1 t = isPerspectiveCoordTransform s2 t.

(** Two inputs of [Build] that agree on the capabilities, the flags, the kind
    of draw, the sequence of stages with their private keys and transforms, the
    source of a destination read, the render target and the stage counts, their
    processors being related stage by stage by [R]. *)
Definition pipelines_agree (R : GrProcessor -> GrProcessor -> Prop)
    (optState1 : GrOptDrawState) (descInfo1 : DescInfo) (drawType1 : DrawType)
    (gpu1 : GrGLGpu)
    (optState2 : GrOptDrawState) (descInfo2 : DescInfo) (drawType2 : DrawType)
    (gpu2 : GrGLGpu) : Prop :=
  gpu1 = gpu2
  /\ descInfo1 = descInfo2
  /\ IsPathRenderingDrawType drawType1 = IsPathRenderingDrawType drawType2
  /\ R (pp_proc (getPrimitiveProcessor optState1)) (pp_proc (getPrimitiveProcessor optState2))
  /\ pp_getGLProcessorKey (getPrimitiveProcessor optState1) (getBatchTracker optState1)
       (glCaps gpu1)
     = pp_getGLProcessorKey (getPrimitiveProcessor optState2) (getBatchTracker optState2)
         (glCaps gpu2)
  /\ Forall2 (same_fragment_stage R (glCaps gpu1))
       (fragmentStages optState1) (fragmentStages optState2)
  /\ R (xp_proc (getXferProcessor optState1)) (xp_proc (getXferProcessor optState2))
  /\ xp_getGLProcessorKey (getXferProcessor optState1) (glCaps gpu1)
     = xp_getGLProcessorKey (getXferProcessor optState2) (glCaps gpu2)
  /\ hasGeometryProcessor optState1 = hasGeometryProcessor optState2
  /\ option_map texture (getDstCopy optState1) = option_map texture (getDstCopy optState2)
  /\ getRenderTarget optState1 = getRenderTarget optState2
  /\ numColorStages optState1 = numColorStages optState2
  /\ numCoverageStages optState1 = numCoverageStages optState2.

(** Logically equal inputs: the same configuration, stage by stage. *)
Definition logically_equal := pipelines_agree same_processor.

(** The byte lengths of the private keys of the stages, in pipeline order: the
    primitive stage, the fragment stages, the transfer stage. *)
Definition private_key_sizes (optState : GrOptDrawState) (gpu : GrGLGpu) : list nat :=
  (4 * length (pp_getGLProcessorKey (getPrimitiveProcessor optState)
                 (getBatchTracker optState) (glCaps gpu)))%nat
  :: map (fun fps => (4 * length (fp_getGLProcessorKey (processor fps) (glCaps gpu)))%nat)
         (fragmentStages optState)
  ++ [(4 * length (xp_getGLProcessorKey (getXferProcessor optState) (glCaps gpu)))%nat].



(** Whether the shader must remap the channels of a texture access. *)
Definition needs_remap (caps : GrGLCaps) (access : GrTextureAccess) : bool :=
  swizzle_requires_alpha_remapping caps
    (GrPixelConfigComponentMask (config (getTexture access))) (swizzleMask access).

(** No texture access at index 32 or beyond needs a remap: [gen_texture_key]
    shifts by less than 32 bits. *)
Definition remaps_below_32 (caps : GrGLCaps) (accesses : list GrTextureAccess) : Prop :=
  forall (t : nat) (access : GrTextureAccess),
    accesses !! t = Some access -> (32 <= t)%nat -> needs_remap caps access = false.


(** Every transform of every fragment stage starts from device coordinates. *)
Definition device_sourced_only (optState : GrOptDrawState) : Prop :=
  Forall (fun fps =>
            Forall (fun coordTransform =>
                      sourceCoords coordTransform = kDevice_GrCoordSet)
                   (coordTransforms (processor fps)))
         (fragmentStages optState).

(** The stages of a pipeline in the order [Build] visits them, each with its
    processor, the words of its private key and the transform key [Build]
    passes to [get_meta_key] for it: the literal 0 for the primitive and the
    transfer stage. *)
Definition pipeline_stages (optState : GrOptDrawState) (descInfo : DescInfo)
    (gpu : GrGLGpu) : list (GrProcessor * list Z * result Z) :=
  (pp_proc (getPrimitiveProcessor optState),
   pp_getGLProcessorKey (getPrimitiveProcessor optState) (getBatchTracker optState)
     (glCaps gpu),
   Ok 0)
  :: map (fun fps =>
            (fp_proc (processor fps),
             fp_getGLProcessorKey (processor fps) (glCaps gpu),
             gen_transform_key fps (fRequiresLocalCoordAttrib descInfo)))
         (fragmentStages optState)
  ++ [(xp_proc (getXferProcessor optState),
       xp_getGLProcessorKey (getXferProcessor optState) (glCaps gpu),
       Ok 0)].

(** The class identities of the pipeline are values of [uint32_t]. *)
Definition class_ids_32_bits (optState : GrOptDrawState) : Prop :=
  0 <= classID (pp_proc (getPrimitiveProcessor optState)) < 2 ^ 32
  /\ Forall (fun fps => 0 <= classID (fp_proc (processor fps)) < 2 ^ 32)
            (fragmentStages optState)
  /\ 0 <= classID (xp_proc (getXferProcessor optState)) < 2 ^ 32.

(** What a key holds of one stage: the words of the private key and the three
    fields of the meta-key. *)
Record StageKey : Type := {
  sk_words : list Z;
  sk_textureKey : Z;
  sk_transformKey : Z;
  sk_classID : Z
}.

(** The bytes a stage takes in the key. *)
Definition stage_size (s : StageKey) : nat := (4 * length (sk_words s) + 8)%nat.

(** The bytes of a stage that starts at offset [start] of the processor keys:
    the private key, word by word, then the two words of the meta-key, the
    second with the offset of the meta-key in its low half. *)
Definition stage_bytes (start : nat) (s : StageKey) : list Z :=
  concat (map le32 (sk_words s))
  ++ le32 (sk_textureKey s * 2 ^ 16 + sk_transformKey s)
  ++ le32 (sk_classID s * 2 ^ 16 + Z.of_nat (start + 4 * length (sk_words s))).

Fixpoint stages_bytes (start : nat) (stages : list StageKey) : list Z :=
  match stages with
  | [] => []
  | s :: rest => stage_bytes start s ++ stages_bytes (start + stage_size s) rest
  end.

(** The three fields of the meta-key fit 16 bits each. *)
Definition fields_fit (s : StageKey) : Prop :=
  0 <= sk_textureKey s <= SK_MaxU16
  /\ 0 <= sk_transformKey s <= SK_MaxU16
  /\ 0 <= sk_classID s <= SK_MaxU16.

(** [s] is what the key holds of a stage of the pipeline. *)
Definition encodes (caps : GrGLCaps) (stage : GrProcessor * list Z * result Z)
    (s : StageKey) : Prop :=
  sk_words s = snd (fst stage)
  /\ gen_texture_key (fst (fst stage)) caps = Ok (sk_textureKey s)
  /\ snd stage = Ok (sk_transformKey s)
  /\ sk_classID s = classID (fst (fst stage)).

(** The builder holds the given stages and nothing else, and has counted every
    byte of them. *)
Definition laid_out (b : GrProcessorKeyBuilder) (stages : list StageKey) : Prop :=
  0 <= fCount b
  /\ Z.of_nat (length (fData b)) = 4 * fCount b
  /\ fData b = stages_bytes 0 stages
  /\ Forall fields_fit stages
  /\ Z.of_nat (length (fData b)) <= SK_MaxU16 + 8.

(** Two stages that the key holds alike: the same fields in the meta-key, and
    private keys with the same 32-bit words. *)
Definition held_alike (s1 s2 : StageKey) : Prop :=
  map u32 (sk_words s1) = map u32 (sk_words s2)
  /\ sk_textureKey s1 = sk_textureKey s2
  /\ sk_transformKey s1 = sk_transformKey s2
  /\ sk_classID s1 = sk_classID s2.

(** Two stages of two pipelines with the same class, texture key and transform
    key, and private keys with the same 32-bit words. *)
Definition stage_keys_agree (caps1 caps2 : GrGLCaps)
    (stage1 stage2 : GrProcessor * list Z * result Z) : Prop :=
  classID (fst (fst stage1)) = classID (fst (fst stage2))
  /\ gen_texture_key (fst (fst stage1)) caps1 = gen_texture_key (fst (fst stage2)) caps2
  /\ snd stage1 = snd stage2
  /\ map u32 (snd (fst stage1)) = map u32 (snd (fst stage2)).

(** No shift of the two key encoders leaves the 32 bits of its operand: no
    fragment stage has more than seven transforms, and no processor needs a
    remap for a texture at index 32 or beyond. *)
Definition shifts_defined (optState : GrOptDrawState) (gpu : GrGLGpu) : Prop :=
  remaps_below_32 (glCaps gpu)
    (textureAccesses (pp_proc (getPrimitiveProcessor optState)))
  /\ Forall (fun fps =>
               (numTransforms (processor fps) <= 7)%nat
               /\ remaps_below_32 (glCaps gpu)
                    (textureAccesses (fp_proc (processor fps))))
            (fragmentStages optState)
  /\ remaps_below_32 (glCaps gpu)
       (textureAccesses (xp_proc (getXferProcessor optState))).

(** Two inputs with the same stages and counts that differ at most in what
    the header statements do not read: the draw type beyond its being a
    path-rendering one where path rendering is supported, the geometry
    processor flag outside such a draw, the copy of the destination without a
    destination read, and the render target without a read of the fragment
    position. *)
Definition same_but_unread (optState1 : GrOptDrawState) (drawType1 : DrawType)
    (optState2 : GrOptDrawState) (drawType2 : DrawType)
    (descInfo : DescInfo) (gpu : GrGLGpu) : Prop :=
  getPrimitiveProcessor optState1 = getPrimitiveProcessor optState2
  /\ getBatchTracker optState1 = getBatchTracker optState2
  /\ fragmentStages optState1 = fragmentStages optState2
  /\ getXferProcessor optState1 = getXferProcessor optState2
  /\ numColorStages optState1 = numColorStages optState2
  /\ numCoverageStages optState1 = numCoverageStages optState2
  /\ (pathRenderingSupport (caps gpu) = true ->
      IsPathRenderingDrawType drawType1 = IsPathRenderingDrawType drawType2
      /\ (IsPathRenderingDrawType drawType1 = true ->
          hasGeometryProcessor optState1 = hasGeometryProcessor optState2))
  /\ (fReadsDst descInfo = true -> getDstCopy optState1 = getDstCopy optState2)
  /\ (fReadsFragPosition descInfo = true ->
      getRenderTarget optState1 = getRenderTarget optState2).
(** ** Bits and words *)

Lemma u32_range z : 0 <= u32 z < 2 ^ 32.
Proof. unfold u32. apply Z.mod_pos_bound. lia. Qed.

Lemma u32_small z : 0 <= z < 2 ^ 32 -> u32 z = z.
Proof. intros Hz. unfold u32. now apply Z.mod_small. Qed.

Lemma pow2_pos k : 0 <= k -> 0 < 2 ^ k.
Proof. intros Hk. apply Z.pow_pos_nonneg; lia. Qed.

(** A value below bit [k] and a multiple of [2 ^ k] share no bit. *)
Lemma land_below_multiple a c k :
  0 <= k -> 0 <= a < 2 ^ k -> Z.land a (c * 2 ^ k) = 0.
Proof.
  intros Hk Ha. apply Z.bits_inj'. intros n Hn.
  rewrite Z.land_spec, Z.bits_0, <- Z.shiftl_mul_pow2 by lia.
  destruct (Z.lt_ge_cases n k) as [Hlt | Hge].
  - rewrite Z.shiftl_spec_low by lia. apply andb_false_r.
  - replace (Z.testbit a n) with false; [reflexivity|].
    symmetry. apply (proj1 (Z.bounded_iff_bits_nonneg k a Hk (proj1 Ha))); lia.
Qed.

Lemma lor_below_multiple a c k :
  0 <= k -> 0 <= a < 2 ^ k -> Z.lor a (c * 2 ^ k) = a + c * 2 ^ k.
Proof.
  intros Hk Ha. symmetry. apply Z.add_nocarry_lor. now apply land_below_multiple.
Qed.

(** A shift cut to 32 bits is still a multiple of the shift's power of two. *)
Lemma u32_shiftl_multiple x s :
  0 <= s <= 32 -> u32 (Z.shiftl x s) = (x mod 2 ^ (32 - s)) * 2 ^ s.
Proof.
  intros Hs. unfold u32. rewrite Z.shiftl_mul_pow2 by lia.
  replace (2 ^ 32) with (2 ^ (32 - s) * 2 ^ s).
  - apply Z.mul_mod_distr_r; apply Z.pow_nonzero; lia.
  - rewrite <- Z.pow_add_r by lia. f_equal. lia.
Qed.

Lemma shl32_in_range x s :
  0 <= s < 32 -> shl32 x s = Ok (u32 (Z.shiftl x s)).
Proof.
  intros Hs. unfold shl32.
  destruct (Z.leb_spec 0 s); [|lia]. destruct (Z.ltb_spec s 32); [reflexivity|lia].
Qed.

Lemma shl32_out_of_range x s : 32 <= s -> shl32 x s = Abort UndefinedShift.
Proof.
  intros Hs. unfold shl32.
  destruct (Z.ltb_spec s 32); [lia|]. now rewrite andb_false_r.
Qed.

Lemma le32_length w : length (le32 w) = 4%nat.
Proof. reflexivity. Qed.

Lemma le_value_le32 w : le_value (le32 w) = u32 w.
Proof.
  unfold le32, le_value, u32.
  change (2 ^ 8) with 256. change (2 ^ 16) with (256 * 256).
  change (2 ^ 24) with (256 * 256 * 256).
  change (2 ^ 32) with (256 * (256 * (256 * 256))).
  rewrite <- !Z.div_div by lia.
  set (w1 := w / 256). set (w2 := w1 / 256). set (w3 := w2 / 256).
  rewrite (Z.rem_mul_r w 256) by lia. fold w1.
  rewrite (Z.rem_mul_r w1 256) by lia. fold w2.
  rewrite (Z.rem_mul_r w2 256) by lia. fold w3.
  lia.
Qed.

(** ** The texture swizzle analyser *)

(** C2. [swizzle_requires_alpha_remapping] follows its truth table: it answers
    false whenever the hardware swizzles textures; without that, on an
    alpha-only texture it answers true when the swizzle reads alpha and alpha
    can be read as red, true when the swizzle reads red, green or blue, and
    false when the swizzle reads neither (alpha alone) and alpha cannot be read
    as red; and it answers false whenever the texture is not alpha-only. *)
Theorem swizzle_remap_truth_table (caps : GrGLCaps) (configComponentMask swizzleComponentMask : Z) :
  let remap := swizzle_requires_alpha_remapping caps configComponentMask swizzleComponentMask in
  (textureSwizzleSupport caps = true -> remap = false)
  /\ (textureSwizzleSupport caps = false ->
      configComponentMask = kA_GrColorComponentFlag ->
      (textureRedSupport caps = true ->
       Z.land kA_GrColorComponentFlag swizzleComponentMask <> 0 -> remap = true)
      /\ (Z.land kRGB_GrColorComponentFlags swizzleComponentMask <> 0 -> remap = true)
      /\ (textureRedSupport caps = false ->
          Z.land kRGB_GrColorComponentFlags swizzleComponentMask = 0 -> remap = false))
  /\ (configComponentMask <> kA_GrColorComponentFlag -> remap = false).
Proof.
  unfold swizzle_requires_alpha_remapping. cbv zeta.
  split; [|split].
  - intros ->. reflexivity.
  - intros -> ->. rewrite Z.eqb_refl.
    split; [|split].
    + intros -> Ha. apply Z.eqb_neq in Ha. now rewrite Ha.
    + intros Hrgb. apply Z.eqb_neq in Hrgb. rewrite Hrgb.
      now destruct (textureRedSupport caps && _).
    + intros -> Hrgb. apply Z.eqb_eq in Hrgb. now rewrite Hrgb.
  - intros Hne. destruct (textureSwizzleSupport caps); [reflexivity|].
    destruct (Z.eqb_spec kA_GrColorComponentFlag configComponentMask);
      [congruence | reflexivity].
Qed.

(** ** The transform key encoder *)

Lemma coord_transform_key_value stage useExplicitLocalCoords t coordTransform :
  coord_transform_key stage useExplicitLocalCoords t coordTransform
  = Z.b2z (isPerspectiveCoordTransform stage t)
    + 2 * GrSLPrecision_value (precision coordTransform)
    + 8 * Z.b2z (GrCoordSet_eqb kLocal_GrCoordSet (sourceCoords coordTransform)
                 && negb useExplicitLocalCoords)
    + 16 * Z.b2z (GrCoordSet_eqb kDevice_GrCoordSet (sourceCoords coordTransform)).
Proof.
  unfold coord_transform_key.
  destruct (isPerspectiveCoordTransform stage t), (sourceCoords coordTransform),
    useExplicitLocalCoords, (precision coordTransform); reflexivity.
Qed.

Lemma coord_transform_key_range stage useExplicitLocalCoords t coordTransform :
  0 <= coord_transform_key stage useExplicitLocalCoords t coordTransform
    < 2 ^ kTransformKeyBits.
Proof.
  rewrite coord_transform_key_value. change (2 ^ kTransformKeyBits) with 32.
  destruct (isPerspectiveCoordTransform stage t), (sourceCoords coordTransform),
    useExplicitLocalCoords, (precision coordTransform); simpl; lia.
Qed.

Lemma pow2_transform_bits_succ (t : nat) :
  2 ^ (kTransformKeyBits * Z.of_nat (S t))
  = 2 ^ kTransformKeyBits * 2 ^ (kTransformKeyBits * Z.of_nat t).
Proof.
  unfold kTransformKeyBits, kMatrixTypeKeyBits, kPrecisionBits.
  rewrite <- Z.pow_add_r by lia. f_equal. lia.
Qed.

(** Up to seven transforms the loop ends without an assertion: every shifted
    key lies above the total gathered so far. *)
Lemma gen_transform_key_loop_sum stage useExplicitLocalCoords transforms :
  forall (t : nat) (totalKey : Z),
    (t + length transforms <= 7)%nat ->
    0 <= totalKey < 2 ^ (kTransformKeyBits * Z.of_nat t) ->
    gen_transform_key_loop stage useExplicitLocalCoords transforms t totalKey
    = Ok (totalKey + shifted_transform_keys stage useExplicitLocalCoords transforms t).
Proof.
  induction transforms as [|coordTransform rest IH]; intros t totalKey Hlen Htotal.
  - simpl. f_equal. lia.
  - simpl in Hlen. cbn [gen_transform_key_loop shifted_transform_keys].
    assert (Hshift : 0 <= kTransformKeyBits * Z.of_nat t <= 30)
      by (change kTransformKeyBits with 5; lia).
    rewrite shl32_in_range by lia. cbn [bind].
    set (key := coord_transform_key stage useExplicitLocalCoords t coordTransform).
    rewrite u32_shiftl_multiple by lia.
    set (cut := key mod 2 ^ (32 - kTransformKeyBits * Z.of_nat t)).
    rewrite land_below_multiple by lia. cbn [Z.eqb sk_assert bind].
    rewrite lor_below_multiple by lia.
    rewrite IH.
    + f_equal. lia.
    + lia.
    + pose proof (coord_transform_key_range stage useExplicitLocalCoords t coordTransform)
        as Hkey. fold key in Hkey.
      assert (Hcut : 0 <= cut <= key).
      { unfold cut. split.
        - apply Z.mod_pos_bound. apply pow2_pos. lia.
        - apply Z.mod_le; [lia | apply pow2_pos; lia]. }
      rewrite pow2_transform_bits_succ.
      pose proof (pow2_pos (kTransformKeyBits * Z.of_nat t) ltac:(lia)) as Hpos.
      change (2 ^ kTransformKeyBits) with 32 in *. nia.
Qed.

Lemma shifted_transform_keys_packed stage useExplicitLocalCoords transforms :
  forall t : nat,
    (t + length transforms <= 6)%nat ->
    shifted_transform_keys stage useExplicitLocalCoords transforms t
    = 2 ^ (kTransformKeyBits * Z.of_nat t)
      * packed_transform_keys stage useExplicitLocalCoords transforms t.
Proof.
  induction transforms as [|coordTransform rest IH]; intros t Hlen.
  - simpl. lia.
  - simpl in Hlen. cbn [shifted_transform_keys packed_transform_keys].
    rewrite IH by lia. rewrite pow2_transform_bits_succ.
    pose proof (coord_transform_key_range stage useExplicitLocalCoords t coordTransform)
      as Hkey.
    rewrite Z.shiftl_mul_pow2 by (change kTransformKeyBits with 5; lia).
    rewrite u32_small; [lia|].
    assert (Hp : 0 < 2 ^ (kTransformKeyBits * Z.of_nat t) <= 2 ^ 25).
    { split; [apply pow2_pos; change kTransformKeyBits with 5; lia|].
      apply Z.pow_le_mono_r; [lia|]. change kTransformKeyBits with 5. lia. }
    change (2 ^ kTransformKeyBits) with 32 in Hkey. change (2 ^ 32) with (32 * 2 ^ 25 * 4).
    change (2 ^ 25) with 33554432 in *. nia.
Qed.

(** With at most six transforms the key is the base-32 number of the keys. *)
Lemma gen_transform_key_packed stage useExplicitLocalCoords :
  (numTransforms (processor stage) <= 6)%nat ->
  gen_transform_key stage useExplicitLocalCoords
  = Ok (packed_transform_keys stage useExplicitLocalCoords
          (coordTransforms (processor stage)) 0).
Proof.
  intros Hn. unfold gen_transform_key, numTransforms in *.
  rewrite gen_transform_key_loop_sum by (simpl; lia).
  rewrite shifted_transform_keys_packed by (simpl; lia).
  f_equal. change (2 ^ (kTransformKeyBits * Z.of_nat 0)) with 1. lia.
Qed.

Lemma packed_transform_keys_nonneg stage useExplicitLocalCoords transforms :
  forall t, 0 <= packed_transform_keys stage useExplicitLocalCoords transforms t.
Proof.
  induction transforms as [|coordTransform rest IH]; intros t; simpl; [lia|].
  pose proof (coord_transform_key_range stage useExplicitLocalCoords t coordTransform).
  pose proof (IH (S t)). change (2 ^ kTransformKeyBits) with 32 in *. lia.
Qed.

(** Digit [i] of the packed number is the key of the transform at index [i]. *)
Lemma packed_transform_keys_digit stage useExplicitLocalCoords transforms :
  forall (t i : nat) coordTransform,
    transforms !! i = Some coordTransform ->
    (packed_transform_keys stage useExplicitLocalCoords transforms t
       / 2 ^ (kTransformKeyBits * Z.of_nat i)) mod 2 ^ kTransformKeyBits
    = coord_transform_key stage useExplicitLocalCoords (t + i) coordTransform.
Proof.
  induction transforms as [|first rest IH]; intros t i coordTransform Hi; [discriminate|].
  cbn [packed_transform_keys].
  pose proof (coord_transform_key_range stage useExplicitLocalCoords t first) as Hkey.
  destruct i as [|i].
  - injection Hi as ->. change (2 ^ (kTransformKeyBits * Z.of_nat 0)) with 1.
    rewrite Z.div_1_r, Nat.add_0_r, Z.mul_comm, Z.mod_add by (change (2 ^ kTransformKeyBits) with 32; lia).
    now apply Z.mod_small.
  - simpl in Hi. rewrite pow2_transform_bits_succ.
    rewrite <- Z.div_div;
      [|change (2 ^ kTransformKeyBits) with 32; lia
       |apply pow2_pos; change kTransformKeyBits with 5; lia].
    rewrite (Z.mul_comm (2 ^ kTransformKeyBits)), Z.div_add
      by (change (2 ^ kTransformKeyBits) with 32; lia).
    rewrite (Z.div_small _ _ Hkey), Z.add_0_l.
    rewrite (IH (S t) i coordTransform Hi). f_equal. lia.
Qed.

Lemma placed_transform_key_value stage useExplicitLocalCoords t coordTransform :
  placed_transform_key stage useExplicitLocalCoords t coordTransform
  = coord_transform_key stage useExplicitLocalCoords t coordTransform
    * 2 ^ (kTransformKeyBits * Z.of_nat t).
Proof.
  unfold placed_transform_key. apply Z.shiftl_mul_pow2.
  change kTransformKeyBits with 5. lia.
Qed.

(** The keys of two different transforms, each at its place, share no bit. *)
Lemma placed_transform_keys_disjoint stage useExplicitLocalCoords i j cti ctj :
  i <> j ->
  Z.land (placed_transform_key stage useExplicitLocalCoords i cti)
         (placed_transform_key stage useExplicitLocalCoords j ctj) = 0.
Proof.
  assert (Hlt : forall i j cti ctj, (i < j)%nat ->
    Z.land (placed_transform_key stage useExplicitLocalCoords i cti)
           (placed_transform_key stage useExplicitLocalCoords j ctj) = 0).
  { clear. intros i j cti ctj Hij. rewrite !placed_transform_key_value.
    apply land_below_multiple; [change kTransformKeyBits with 5; lia|].
    pose proof (coord_transform_key_range stage useExplicitLocalCoords i cti) as Hkey.
    pose proof (pow2_pos (kTransformKeyBits * Z.of_nat i)
                  ltac:(change kTransformKeyBits with 5; lia)) as Hpos.
    split; [nia|].
    apply Z.lt_le_trans with (2 ^ (kTransformKeyBits * Z.of_nat (S i))).
    - rewrite pow2_transform_bits_succ. nia.
    - apply Z.pow_le_mono_r; [lia|]. change kTransformKeyBits with 5. lia. }
  intros Hij. destruct (Nat.lt_total i j) as [H | [H | H]]; [auto | lia |].
  rewrite Z.land_comm. auto.
Qed.

Lemma ored_transform_keys_packed stage useExplicitLocalCoords transforms :
  forall t : nat,
    ored_transform_keys stage useExplicitLocalCoords transforms t
    = 2 ^ (kTransformKeyBits * Z.of_nat t)
      * packed_transform_keys stage useExplicitLocalCoords transforms t.
Proof.
  induction transforms as [|coordTransform rest IH]; intros t.
  - simpl. lia.
  - cbn [ored_transform_keys packed_transform_keys].
    rewrite IH, placed_transform_key_value, pow2_transform_bits_succ.
    pose proof (coord_transform_key_range stage useExplicitLocalCoords t coordTransform)
      as Hkey.
    pose proof (pow2_pos (kTransformKeyBits * Z.of_nat t)
                  ltac:(change kTransformKeyBits with 5; lia)) as Hpos.
    rewrite <- pow2_transform_bits_succ.
    rewrite (Z.mul_comm (2 ^ (kTransformKeyBits * Z.of_nat (S t)))).
    rewrite lor_below_multiple.
    + rewrite pow2_transform_bits_succ. lia.
    + change kTransformKeyBits with 5. lia.
    + rewrite pow2_transform_bits_succ. nia.
Qed.

Lemma transform_key_field_value key t :
  transform_key_field key t
  = (key / 2 ^ (kTransformKeyBits * Z.of_nat t)) mod 2 ^ kTransformKeyBits.
Proof.
  unfold transform_key_field.
  rewrite Z.shiftr_div_pow2 by (change kTransformKeyBits with 5; lia).
  change (2 ^ kTransformKeyBits - 1) with (Z.ones kTransformKeyBits).
  apply Z.land_ones. change kTransformKeyBits with 5. lia.
Qed.

(** What the bits of one transform's key say. *)
Lemma coord_transform_key_bits stage useExplicitLocalCoords t coordTransform :
  let key := coord_transform_key stage useExplicitLocalCoords t coordTransform in
  Z.land key kMatrixTypeKeyMask
    = (if isPerspectiveCoordTransform stage t then kGeneral_MatrixType
       else kNoPersp_MatrixType)
  /\ Z.land (Z.shiftr key kPrecisionShift) (2 ^ kPrecisionBits - 1)
     = GrSLPrecision_value (precision coordTransform)
  /\ negb (Z.land key kPositionCoords_Flag =? 0)
     = GrCoordSet_eqb kLocal_GrCoordSet (sourceCoords coordTransform)
       && negb useExplicitLocalCoords
  /\ negb (Z.land key kDeviceCoords_Flag =? 0)
     = GrCoordSet_eqb kDevice_GrCoordSet (sourceCoords coordTransform).
Proof.
  cbv zeta. rewrite coord_transform_key_value.
  destruct (isPerspectiveCoordTransform stage t), (sourceCoords coordTransform),
    useExplicitLocalCoords, (precision coordTransform); repeat split; reflexivity.
Qed.

(** C10. A fragment stage with at most six transforms
    (32 / kTransformKeyBits, kTransformKeyBits = 5) has a transform key: the
    encoder returns one, so the overlap assertion does not fire, the keys of
    its transforms lie on pairwise disjoint bits, and with no transform at all
    the key is 0, the value [Build] passes for the primitive and the transfer
    stage. *)
Theorem transform_key_total_within_capacity
    (stage : GrPendingFragmentStage) (useExplicitLocalCoords : bool) :
  (numTransforms (processor stage) <= 6)%nat ->
  (exists totalKey, gen_transform_key stage useExplicitLocalCoords = Ok totalKey)
  /\ (forall i j cti ctj,
        coordTransforms (processor stage) !! i = Some cti ->
        coordTransforms (processor stage) !! j = Some ctj ->
        i <> j ->
        Z.land (placed_transform_key stage useExplicitLocalCoords i cti)
               (placed_transform_key stage useExplicitLocalCoords j ctj) = 0)
  /\ (numTransforms (processor stage) = 0%nat ->
      gen_transform_key stage useExplicitLocalCoords = Ok 0).
Proof.
  intros Hn. split; [|split].
  - eexists. now apply gen_transform_key_packed.
  - intros i j cti ctj _ _ Hij. now apply placed_transform_keys_disjoint.
  - intros H0. rewrite gen_transform_key_packed by exact Hn.
    unfold numTransforms in H0. apply length_zero_iff_nil in H0. now rewrite H0.
Qed.

Lemma shifted_transform_keys_app stage useExplicitLocalCoords front back :
  forall t : nat,
    shifted_transform_keys stage useExplicitLocalCoords (front ++ back) t
    = shifted_transform_keys stage useExplicitLocalCoords front t
      + shifted_transform_keys stage useExplicitLocalCoords back (t + length front).
Proof.
  induction front as [|coordTransform rest IH]; intros t.
  - simpl. now rewrite Nat.add_0_r.
  - cbn [app shifted_transform_keys length]. rewrite IH.
    replace (S t + length rest)%nat with (t + S (length rest))%nat by lia. lia.
Qed.

(** With seven transforms the loop still ends without an assertion: the
    seventh key is shifted by 30 and only its two lowest bits stay. *)
Lemma gen_transform_key_seven stage useExplicitLocalCoords seventh :
  numTransforms (processor stage) = 7%nat ->
  coordTransforms (processor stage) !! 6%nat = Some seventh ->
  gen_transform_key stage useExplicitLocalCoords
  = Ok (packed_transform_keys stage useExplicitLocalCoords
          (take 6 (coordTransforms (processor stage))) 0
        + (coord_transform_key stage useExplicitLocalCoords 6 seventh mod 4) * 2 ^ 30).
Proof.
  unfold numTransforms, gen_transform_key. intros Hn H6.
  rewrite gen_transform_key_loop_sum by (simpl; lia). f_equal.
  rewrite <- (take_drop_middle _ _ _ H6) at 1.
  rewrite (drop_ge _ 7) by lia.
  rewrite shifted_transform_keys_app, length_take, Hn.
  rewrite shifted_transform_keys_packed by (rewrite length_take; lia).
  cbn [shifted_transform_keys Nat.add Nat.min].
  rewrite u32_shiftl_multiple by (change kTransformKeyBits with 5; lia).
  change (2 ^ (kTransformKeyBits * Z.of_nat 0)) with 1.
  change (kTransformKeyBits * Z.of_nat 6) with 30. change (2 ^ (32 - 30)) with 4. lia.
Qed.

Lemma packed_transform_keys_bound stage useExplicitLocalCoords transforms :
  forall t : nat,
    0 <= packed_transform_keys stage useExplicitLocalCoords transforms t
      < 2 ^ (kTransformKeyBits * Z.of_nat (length transforms)).
Proof.
  induction transforms as [|coordTransform rest IH]; intros t.
  - cbn. lia.
  - cbn [packed_transform_keys length]. rewrite pow2_transform_bits_succ.
    pose proof (coord_transform_key_range stage useExplicitLocalCoords t coordTransform).
    pose proof (IH (S t)). change (2 ^ kTransformKeyBits) with 32 in *. lia.
Qed.

Lemma packed_transform_keys_app stage useExplicitLocalCoords front back :
  forall t : nat,
    packed_transform_keys stage useExplicitLocalCoords (front ++ back) t
    = packed_transform_keys stage useExplicitLocalCoords front t
      + 2 ^ (kTransformKeyBits * Z.of_nat (length front))
        * packed_transform_keys stage useExplicitLocalCoords back (t + length front).
Proof.
  induction front as [|coordTransform rest IH]; intros t.
  - cbn [app packed_transform_keys length]. rewrite Nat.add_0_r.
    change (2 ^ (kTransformKeyBits * Z.of_nat 0)) with 1. lia.
  - cbn [app packed_transform_keys length]. rewrite IH, pow2_transform_bits_succ.
    replace (S t + length rest)%nat with (t + S (length rest))%nat by lia. lia.
Qed.

(** Up to seven transforms, where every shift is defined, the key is the
    base-32 number of the keys of the transforms, cut to 32 bits. *)
Lemma gen_transform_key_u32 stage useExplicitLocalCoords :
  (numTransforms (processor stage) <= 7)%nat ->
  gen_transform_key stage useExplicitLocalCoords
  = Ok (u32 (packed_transform_keys stage useExplicitLocalCoords
               (coordTransforms (processor stage)) 0)).
Proof.
  intros Hn.
  destruct (Nat.le_gt_cases (numTransforms (processor stage)) 6) as [Hsix | Hseven].
  - rewrite gen_transform_key_packed by exact Hsix. f_equal. symmetry.
    apply u32_small. unfold numTransforms in Hsix.
    pose proof (packed_transform_keys_bound stage useExplicitLocalCoords
                  (coordTransforms (processor stage)) 0) as Hbound.
    assert (2 ^ (kTransformKeyBits * Z.of_nat (length (coordTransforms (processor stage))))
            <= 2 ^ 32)
      by (apply Z.pow_le_mono_r; [lia|]; change kTransformKeyBits with 5; lia).
    lia.
  - assert (Hcount : numTransforms (processor stage) = 7%nat) by lia.
    unfold numTransforms in Hcount.
    destruct (lookup_lt_is_Some_2 (coordTransforms (processor stage)) 6 ltac:(lia))
      as [seventh H6].
    rewrite (gen_transform_key_seven _ _ seventh Hcount H6). f_equal.
    rewrite <- (take_drop_middle _ _ _ H6) at 2.
    rewrite (drop_ge _ 7) by lia.
    rewrite packed_transform_keys_app, length_take, Hcount.
    cbn [Nat.min packed_transform_keys Nat.add].
    pose proof (packed_transform_keys_bound stage useExplicitLocalCoords
                  (take 6 (coordTransforms (processor stage))) 0) as Hfront.
    rewrite length_take, Hcount in Hfront. cbn [Nat.min] in Hfront.
    pose proof (coord_transform_key_range stage useExplicitLocalCoords 6 seventh) as Hkey.
    set (front := packed_transform_keys stage useExplicitLocalCoords
                    (take 6 (coordTransforms (processor stage))) 0) in *.
    set (key := coord_transform_key stage useExplicitLocalCoords 6 seventh) in *.
    change (kTransformKeyBits * Z.of_nat 6) with 30 in *.
    change (2 ^ kTransformKeyBits) with 32 in *.
    unfold u32. rewrite (Z.div_mod key 4) at 2 by lia.
    replace (front + 2 ^ 30 * (4 * (key / 4) + key mod 4 + 32 * 0))
      with (front + key mod 4 * 2 ^ 30 + key / 4 * 2 ^ 32)
      by (change (2 ^ 32) with (4 * 2 ^ 30); lia).
    rewrite Z.mod_add by lia. symmetry. apply Z.mod_small.
    pose proof (Z.mod_pos_bound key 4 ltac:(lia)).
    change (2 ^ 32) with (4 * 2 ^ 30). change (2 ^ 30) with 1073741824 in *. lia.
Qed.

(** A field below bit 30 is read back from the 32-bit key as from the whole
    number; the field at bit 30 keeps its two low bits. *)
Lemma transform_key_field_u32 x (t : nat) :
  (t <= 5)%nat -> transform_key_field (u32 x) t = transform_key_field x t.
Proof.
  intros Ht. unfold transform_key_field, u32.
  change (2 ^ kTransformKeyBits - 1) with (Z.ones 5). change kTransformKeyBits with 5.
  apply Z.bits_inj'. intros n Hn.
  rewrite !Z.land_spec, !Z.shiftr_spec by lia.
  destruct (Z.lt_ge_cases n 5) as [Hlow | Hhigh].
  - now rewrite Z.mod_pow2_bits_low by lia.
  - rewrite Z.ones_spec_high by lia. now rewrite !andb_false_r.
Qed.

Lemma transform_key_field_u32_seventh x :
  transform_key_field (u32 x) 6 = Z.land (transform_key_field x 6) 3.
Proof.
  unfold transform_key_field, u32.
  change (2 ^ kTransformKeyBits - 1) with (Z.ones 5). change 3 with (Z.ones 2).
  change (kTransformKeyBits * Z.of_nat 6) with 30.
  apply Z.bits_inj'. intros n Hn.
  rewrite !Z.land_spec, !Z.shiftr_spec by lia.
  destruct (Z.lt_ge_cases n 2) as [Hlow | Hhigh].
  - rewrite Z.mod_pow2_bits_low by lia.
    rewrite (Z.ones_spec_low 2) by lia. now rewrite andb_true_r.
  - rewrite Z.mod_pow2_bits_high by lia.
    rewrite (Z.ones_spec_high 2) by lia. now rewrite andb_false_r.
Qed.

(** C6. The field of transform [t], over every stage whose shifts are all
    defined (at most seven transforms).  In the field the encoder builds, the
    matrix-type bit is set iff the transform is in perspective, the two bits
    above hold the precision, the position flag is set iff the transform starts
    from local coordinates and explicit local coordinates are not in use, and
    the device flag is set iff it starts from device coordinates.  The key is
    the bitwise or of the fields, each shifted left by kTransformKeyBits * t,
    as a value of 32 bits.  So a field at an index below 6 is read back whole
    from the key, and of a field at index 6, shifted by 30, the key keeps the
    two low bits. *)
Theorem transform_key_field_encoding
    (stage : GrPendingFragmentStage) (useExplicitLocalCoords : bool)
    (t : nat) (coordTransform : GrCoordTransform) :
  (numTransforms (processor stage) <= 7)%nat ->
  coordTransforms (processor stage) !! t = Some coordTransform ->
  let field := coord_transform_key stage useExplicitLocalCoords t coordTransform in
  (Z.land field kMatrixTypeKeyMask
     = (if isPerspectiveCoordTransform stage t then kGeneral_MatrixType
        else kNoPersp_MatrixType)
   /\ Z.land (Z.shiftr field kPrecisionShift) (2 ^ kPrecisionBits - 1)
      = GrSLPrecision_value (precision coordTransform)
   /\ negb (Z.land field kPositionCoords_Flag =? 0)
      = GrCoordSet_eqb kLocal_GrCoordSet (sourceCoords coordTransform)
        && negb useExplicitLocalCoords
   /\ negb (Z.land field kDeviceCoords_Flag =? 0)
      = GrCoordSet_eqb kDevice_GrCoordSet (sourceCoords coordTransform))
  /\ exists totalKey,
       gen_transform_key stage useExplicitLocalCoords = Ok totalKey
       /\ totalKey = u32 (ored_transform_keys stage useExplicitLocalCoords
                            (coordTransforms (processor stage)) 0)
       /\ ((t < 6)%nat -> transform_key_field totalKey t = field)
       /\ (t = 6%nat -> transform_key_field totalKey t = Z.land field 3).
Proof.
  intros Hn Ht. cbv zeta. split; [apply coord_transform_key_bits|].
  eexists. split; [now apply gen_transform_key_u32|].
  pose proof (packed_transform_keys_digit stage useExplicitLocalCoords
                (coordTransforms (processor stage)) 0 t coordTransform Ht) as Hdigit.
  rewrite <- transform_key_field_value in Hdigit. cbn [Nat.add] in Hdigit.
  split; [|split].
  - rewrite ored_transform_keys_packed.
    change (2 ^ (kTransformKeyBits * Z.of_nat 0)) with 1. f_equal. lia.
  - intros Hlow. rewrite transform_key_field_u32 by lia. exact Hdigit.
  - intros ->. rewrite transform_key_field_u32_seventh. now rewrite Hdigit.
Qed.

(** ** The meta-key encoder *)

Lemma lor_range a b n :
  0 <= n -> 0 <= a < 2 ^ n -> 0 <= b < 2 ^ n -> 0 <= Z.lor a b < 2 ^ n.
Proof.
  intros Hn Ha Hb.
  assert (H0 : 0 <= Z.lor a b) by (apply Z.lor_nonneg; lia).
  apply (Z.bounded_iff_bits_nonneg' n _ Hn H0). intros l Hl.
  rewrite Z.lor_spec.
  rewrite (proj1 (Z.bounded_iff_bits_nonneg' n a Hn (proj1 Ha)) Ha l Hl).
  rewrite (proj1 (Z.bounded_iff_bits_nonneg' n b Hn (proj1 Hb)) Hb l Hl).
  reflexivity.
Qed.

Lemma lor_below a b n :
  0 <= n -> 0 <= a -> 0 <= b -> Z.lor a b < 2 ^ n -> a < 2 ^ n /\ b < 2 ^ n.
Proof.
  intros Hn Ha Hb Hlor.
  assert (H0 : 0 <= Z.lor a b) by (apply Z.lor_nonneg; lia).
  pose proof (proj1 (Z.bounded_iff_bits_nonneg n _ Hn H0) Hlor) as Hbits.
  split; apply Z.bounded_iff_bits_nonneg; try lia; intros l Hl;
    specialize (Hbits l Hl); rewrite Z.lor_spec in Hbits;
    apply orb_false_iff in Hbits as [Hbit_a Hbit_b]; assumption.
Qed.

(** The mask test of [get_meta_key]: a 32-bit value has no bit under the mask
    exactly when it fits 16 bits. *)
Lemma meta_key_mask_fits x :
  0 <= x < 2 ^ 32 -> Z.land x kMetaKeyInvalidMask = 0 <-> x <= SK_MaxU16.
Proof.
  intros Hx.
  change kMetaKeyInvalidMask with (Z.ones 16 * 2 ^ 16). change SK_MaxU16 with 65535.
  split.
  - intros Hland.
    assert (Hlt : x < 2 ^ 16); [|change (2 ^ 16) with 65536 in Hlt; lia].
    apply Z.bounded_iff_bits_nonneg; [lia | lia |]. intros l Hl.
    destruct (Z.lt_ge_cases l 32) as [Hl32 | Hl32].
    + pose proof (f_equal (fun z => Z.testbit z l) Hland) as Hbit. cbv beta in Hbit.
      rewrite Z.land_spec, Z.bits_0, <- Z.shiftl_mul_pow2, Z.shiftl_spec in Hbit by lia.
      rewrite Z.ones_spec_low, andb_true_r in Hbit by lia. exact Hbit.
    + apply (proj1 (Z.bounded_iff_bits_nonneg' 32 x ltac:(lia) (proj1 Hx)) Hx). lia.
  - intros Hle. apply land_below_multiple; [lia|]. change (2 ^ 16) with 65536. lia.
Qed.

Lemma gen_texture_key_loop_range caps accesses :
  forall (t : nat) (key textureKey : Z),
    0 <= key < 2 ^ 32 ->
    gen_texture_key_loop caps accesses t key = Ok textureKey ->
    0 <= textureKey < 2 ^ 32.
Proof.
  induction accesses as [|access rest IH]; intros t key textureKey Hkey Hloop.
  - injection Hloop as <-. exact Hkey.
  - cbn [gen_texture_key_loop] in Hloop.
    destruct (swizzle_requires_alpha_remapping _ _ _); [|eauto].
    unfold shl32 in Hloop. destruct ((0 <=? Z.of_nat t) && (Z.of_nat t <? 32));
      [|discriminate].
    cbn [bind] in Hloop. apply IH in Hloop; [exact Hloop|].
    apply lor_range; [lia | exact Hkey | apply u32_range].
Qed.

Lemma gen_texture_key_range proc caps textureKey :
  gen_texture_key proc caps = Ok textureKey -> 0 <= textureKey < 2 ^ 32.
Proof. apply gen_texture_key_loop_range. lia. Qed.

(** The three keys pass the mask test together exactly when each fits 16 bits. *)
Lemma meta_key_fields_fit textureKey transformKey classID :
  0 <= textureKey < 2 ^ 32 -> 0 <= transformKey < 2 ^ 32 -> 0 <= classID < 2 ^ 32 ->
  Z.land (Z.lor (Z.lor textureKey transformKey) classID) kMetaKeyInvalidMask = 0
  <-> textureKey <= SK_MaxU16 /\ transformKey <= SK_MaxU16 /\ classID <= SK_MaxU16.
Proof.
  intros Htex Htrans Hclass.
  assert (Hor1 : 0 <= Z.lor textureKey transformKey < 2 ^ 32) by (apply lor_range; lia).
  assert (Hor2 : 0 <= Z.lor (Z.lor textureKey transformKey) classID < 2 ^ 32)
    by (apply lor_range; lia).
  rewrite (meta_key_mask_fits _ Hor2). change SK_MaxU16 with 65535.
  split.
  - intros Hle.
    assert (Hlt : Z.lor (Z.lor textureKey transformKey) classID < 2 ^ 16)
      by (change (2 ^ 16) with 65536; lia).
    apply lor_below in Hlt as [Hlt Hc]; [|lia..].
    apply lor_below in Hlt as [Ha Hb]; [|lia..].
    change (2 ^ 16) with 65536 in *. lia.
  - intros (Ha & Hb & Hc).
    assert (0 <= Z.lor (Z.lor textureKey transformKey) classID < 2 ^ 16);
      [|change (2 ^ 16) with 65536 in *; lia].
    change 65535 with (2 ^ 16 - 1) in *.
    apply lor_range; [lia | apply lor_range; lia | lia].
Qed.

(** A field of 16 bits above another: the or is the sum and fits 32 bits. *)
Lemma meta_key_word_value high low :
  0 <= high <= SK_MaxU16 -> 0 <= low <= SK_MaxU16 ->
  Z.lor (Z.shiftl high 16) low = high * 2 ^ 16 + low.
Proof.
  change SK_MaxU16 with 65535. intros Hhigh Hlow.
  rewrite Z.shiftl_mul_pow2, Z.lor_comm, lor_below_multiple
    by (change (2 ^ 16) with 65536; lia).
  lia.
Qed.

Lemma meta_key_word high low :
  0 <= high <= SK_MaxU16 -> 0 <= low <= SK_MaxU16 ->
  u32 (Z.lor (Z.shiftl high 16) low) = high * 2 ^ 16 + low.
Proof.
  intros Hhigh Hlow. rewrite meta_key_word_value by assumption.
  change SK_MaxU16 with 65535 in *.
  apply u32_small. change (2 ^ 16) with 65536. change (2 ^ 32) with 4294967296. lia.
Qed.

(** What a call of [get_meta_key] does, case by case. *)
Lemma get_meta_key_cases proc caps transformKey b textureKey :
  0 <= transformKey < 2 ^ 32 ->
  0 <= classID proc < 2 ^ 32 ->
  0 <= fCount b ->
  gen_texture_key proc caps = Ok textureKey ->
  (textureKey <= SK_MaxU16 /\ transformKey <= SK_MaxU16 /\ classID proc <= SK_MaxU16
   /\ size b <= SK_MaxU16
   /\ get_meta_key proc caps transformKey b
      = Ok (true, add32n [textureKey * 2 ^ 16 + transformKey;
                          classID proc * 2 ^ 16 + size b] b))
  \/ ((SK_MaxU16 < textureKey \/ SK_MaxU16 < transformKey \/ SK_MaxU16 < classID proc
       \/ SK_MaxU16 < size b)
      /\ get_meta_key proc caps transformKey b = Ok (false, b)).
Proof.
  intros Htrans Hclass Hcount Htex. unfold get_meta_key. rewrite Htex. cbn [bind].
  pose proof (gen_texture_key_range _ _ _ Htex) as Htexr.
  pose proof (meta_key_fields_fit _ _ _ Htexr Htrans Hclass) as Hfit.
  destruct (Z.eqb_spec (Z.land (Z.lor (Z.lor textureKey transformKey) (classID proc))
                          kMetaKeyInvalidMask) 0) as [Hzero | Hnz]; cbn [negb].
  - apply Hfit in Hzero as (Ha & Hb & Hc).
    destruct (Z.ltb_spec SK_MaxU16 (size b)) as [Hbig | Hsmall].
    + right. split; [lia | reflexivity].
    + left. repeat (split; [assumption|]).
      assert (Hsize : 0 <= size b) by (unfold size; lia).
      unfold SkToU16. rewrite (Z.mod_small (size b))
        by (change SK_MaxU16 with 65535 in Hsmall; change (2 ^ 16) with 65536; lia).
      rewrite !meta_key_word by lia. reflexivity.
  - right. split; [|reflexivity].
    destruct (Z.le_gt_cases textureKey SK_MaxU16); [|lia].
    destruct (Z.le_gt_cases transformKey SK_MaxU16); [|lia].
    destruct (Z.le_gt_cases (classID proc) SK_MaxU16); [|lia].
    exfalso. apply Hnz, Hfit. auto.
Qed.

(** C3. The contract of [get_meta_key]: it returns false exactly when the
    texture key, the transform key or the class identity needs more than 16
    bits or the size the builder reports exceeds 16 bits, and then it appends
    nothing; otherwise it returns true and appends exactly two 32-bit words,
    (textureKey << 16) | transformKey and then (classID << 16) | size. *)
Theorem meta_key_contract (proc : GrProcessor) (caps : GrGLCaps) (transformKey : Z)
    (b : GrProcessorKeyBuilder) (textureKey : Z) :
  0 <= transformKey < 2 ^ 32 ->
  0 <= classID proc < 2 ^ 32 ->
  0 <= fCount b ->
  gen_texture_key proc caps = Ok textureKey ->
  exists (fits : bool) (b' : GrProcessorKeyBuilder),
    get_meta_key proc caps transformKey b = Ok (fits, b')
    /\ (fits = false <->
        SK_MaxU16 < textureKey \/ SK_MaxU16 < transformKey
        \/ SK_MaxU16 < classID proc \/ SK_MaxU16 < size b)
    /\ (fits = false -> b' = b)
    /\ (fits = true ->
        fData b' = fData b
                   ++ le32 (Z.lor (Z.shiftl textureKey 16) transformKey)
                   ++ le32 (Z.lor (Z.shiftl (classID proc) 16) (size b))
        /\ fCount b' = fCount b + 2).
Proof.
  intros Htrans Hclass Hcount Htex.
  assert (Hsize : 0 <= size b) by (unfold size; lia).
  pose proof (gen_texture_key_range _ _ _ Htex) as Htexr.
  destruct (get_meta_key_cases proc caps transformKey b textureKey
              Htrans Hclass Hcount Htex)
    as [(Ha & Hb & Hc & Hd & Hcall) | [Hover Hcall]].
  - exists true, (add32n [textureKey * 2 ^ 16 + transformKey;
                          classID proc * 2 ^ 16 + size b] b).
    split; [exact Hcall|]. split; [split; [discriminate | lia]|].
    split; [discriminate|]. intros _. split; [|reflexivity].
    cbn [add32n fData map concat]. rewrite app_nil_r.
    rewrite !meta_key_word_value by lia. reflexivity.
  - exists false, b. split; [exact Hcall|].
    split; [split; [intros _; exact Hover | reflexivity]|].
    split; [reflexivity | discriminate].
Qed.

(** ** The capacity of the transform key *)

(** C5 (as the encoder has it). A fragment stage with six transforms
    (32 / kTransformKeyBits) is encoded: every field is read back whole and the
    fields lie on pairwise disjoint bits.  A stage with seven transforms does
    not make the overlap assertion fire: the encoder returns a key, in which the
    seventh field is cut to the two bits left below bit 32.  Up to seven
    transforms, a key that needs more than 16 bits makes [get_meta_key] return
    false and leave the builder as it was. *)
Theorem transform_key_capacity_boundary
    (stage : GrPendingFragmentStage) (useExplicitLocalCoords : bool) :
  (numTransforms (processor stage) = 6%nat ->
   exists totalKey,
     gen_transform_key stage useExplicitLocalCoords = Ok totalKey
     /\ (forall t coordTransform,
           coordTransforms (processor stage) !! t = Some coordTransform ->
           transform_key_field totalKey t
           = coord_transform_key stage useExplicitLocalCoords t coordTransform)
     /\ (forall i j cti ctj,
           coordTransforms (processor stage) !! i = Some cti ->
           coordTransforms (processor stage) !! j = Some ctj ->
           i <> j ->
           Z.land (placed_transform_key stage useExplicitLocalCoords i cti)
                  (placed_transform_key stage useExplicitLocalCoords j ctj) = 0))
  /\ (forall seventh,
        numTransforms (processor stage) = 7%nat ->
        coordTransforms (processor stage) !! 6%nat = Some seventh ->
        gen_transform_key stage useExplicitLocalCoords
        = Ok (packed_transform_keys stage useExplicitLocalCoords
                (take 6 (coordTransforms (processor stage))) 0
              + (coord_transform_key stage useExplicitLocalCoords 6 seventh mod 4)
                * 2 ^ 30))
  /\ ((numTransforms (processor stage) <= 7)%nat ->
      exists totalKey,
        gen_transform_key stage useExplicitLocalCoords = Ok totalKey
        /\ forall proc caps textureKey (b : GrProcessorKeyBuilder),
             gen_texture_key proc caps = Ok textureKey ->
             0 <= classID proc < 2 ^ 32 ->
             0 <= fCount b ->
             SK_MaxU16 < totalKey ->
             get_meta_key proc caps totalKey b = Ok (false, b)).
Proof.
  split; [|split].
  - intros Hn. eexists. split; [apply gen_transform_key_packed; lia|]. split.
    + intros t coordTransform Ht. rewrite transform_key_field_value.
      apply (packed_transform_keys_digit _ _ _ 0 t coordTransform Ht).
    + intros i j cti ctj _ _ Hij. now apply placed_transform_keys_disjoint.
  - intros seventh Hn H6. now apply gen_transform_key_seven.
  - intros Hn. eexists. split; [now apply gen_transform_key_u32|].
    intros proc caps textureKey b Htex Hclass Hcount Hwide.
    set (totalKey := u32 _) in *.
    assert (Hrange : 0 <= totalKey < 2 ^ 32) by apply u32_range.
    destruct (get_meta_key_cases proc caps totalKey b textureKey Hrange Hclass Hcount Htex)
      as [(_ & Hfits & _) | [_ Hcall]]; [lia | exact Hcall].
Qed.

(** ** [Build] in two steps: the processor keys, then the header *)

Lemma add32_prefixed front v b :
  add32 v (prefixed front b) = prefixed front (add32 v b).
Proof. unfold add32, prefixed. cbn [fData fCount]. now rewrite app_assoc. Qed.

Lemma emit_processor_key_prefixed front words :
  forall b, emit_processor_key words (prefixed front b)
            = prefixed front (emit_processor_key words b).
Proof.
  unfold emit_processor_key. induction words as [|v rest IH]; intros b; [reflexivity|].
  cbn [fold_left]. now rewrite add32_prefixed, IH.
Qed.

Lemma get_meta_key_prefixed front proc caps transformKey b :
  get_meta_key proc caps transformKey (prefixed front b)
  = let* r := get_meta_key proc caps transformKey b in
    Ok (fst r, prefixed front (snd r)).
Proof.
  unfold get_meta_key. change (size (prefixed front b)) with (size b).
  destruct (gen_texture_key proc caps) as [textureKey|f]; [|reflexivity]. cbn [bind].
  destruct (negb _); [reflexivity|].
  destruct (SK_MaxU16 <? size b); [reflexivity|].
  cbn [bind fst snd]. unfold add32n, prefixed. cbn [fData fCount].
  now rewrite app_assoc.
Qed.

Lemma fragment_stage_keys_prefixed front caps requiresLocalCoordAttrib stages :
  forall b,
    fragment_stage_keys stages caps requiresLocalCoordAttrib (prefixed front b)
    = let* r := fragment_stage_keys stages caps requiresLocalCoordAttrib b in
      Ok (fst r, prefixed front (snd r)).
Proof.
  induction stages as [|fps rest IH]; intros b; [reflexivity|].
  cbn [fragment_stage_keys]. rewrite emit_processor_key_prefixed.
  destruct (gen_transform_key fps requiresLocalCoordAttrib) as [transformKey|f];
    [|reflexivity].
  cbn [bind]. rewrite get_meta_key_prefixed.
  destruct (get_meta_key _ caps transformKey _) as [[fits b']|f]; [|reflexivity].
  cbn [bind fst snd]. destruct fits; cbn [negb]; [apply IH | reflexivity].
Qed.

(** [Build] is the processor keys behind the reserved bytes, then the header
    written over them; what the descriptor held before plays no part. *)
Lemma Build_processor_keys optState descInfo drawType gpu uninit desc :
  Build optState descInfo drawType gpu uninit desc
  = let* r := processor_keys optState descInfo gpu in
    if negb (fst r) then Ok (false, {| fKey := [] |})
    else
      let* key := write_header kHeaderOffset optState descInfo drawType gpu
                    (map uninit (seq 0 kProcessorKeysOffset) ++ fData (snd r)) in
      Ok (true, {| fKey := finalize key |}).
Proof.
  unfold Build, processor_keys, push_back_n, reset. cbn zeta.
  set (front := map uninit (seq 0 kProcessorKeysOffset)).
  replace (new_GrProcessorKeyBuilder ([] ++ front))
    with (prefixed front (new_GrProcessorKeyBuilder []))
    by (unfold prefixed, new_GrProcessorKeyBuilder; cbn; now rewrite app_nil_r).
  rewrite emit_processor_key_prefixed, get_meta_key_prefixed.
  destruct (get_meta_key (pp_proc _) _ 0 _) as [[fits1 b1]|f]; [|reflexivity].
  cbn [bind fst snd]. destruct fits1; cbn [negb]; [|reflexivity].
  rewrite fragment_stage_keys_prefixed.
  destruct (fragment_stage_keys _ _ _ b1) as [[fits2 b2]|f]; [|reflexivity].
  cbn [bind fst snd]. destruct fits2; cbn [negb]; [|reflexivity].
  rewrite emit_processor_key_prefixed, get_meta_key_prefixed.
  destruct (get_meta_key (xp_proc _) _ 0 _) as [[fits3 b3]|f]; [|reflexivity].
  cbn [bind fst snd]. destruct fits3; cbn [negb]; reflexivity.
Qed.

(** ** What the processor keys depend on *)

Lemma gen_transform_key_loop_ext s1 s2 useExplicitLocalCoords transforms :
  forall (t : nat) (totalKey : Z),
    (forall i : nat, (t <= i < t + length transforms)%nat ->
                     isPerspectiveCoordTransform s1 i = isPerspectiveCoordTransform s2 i) ->
    gen_transform_key_loop s1 useExplicitLocalCoords transforms t totalKey
    = gen_transform_key_loop s2 useExplicitLocalCoords transforms t totalKey.
Proof.
  induction transforms as [|coordTransform rest IH]; intros t totalKey Hpersp;
    [reflexivity|].
  cbn [gen_transform_key_loop length] in *.
  unfold coord_transform_key. rewrite (Hpersp t) by lia.
  destruct (shl32 _ _) as [key|f]; [|reflexivity]. cbn [bind].
  destruct (sk_assert _ _); [|reflexivity]. cbn [bind].
  apply IH. intros i Hi. apply Hpersp. lia.
Qed.

Lemma gen_transform_key_ext R caps s1 s2 useExplicitLocalCoords :
  same_fragment_stage R caps s1 s2 ->
  gen_transform_key s1 useExplicitLocalCoords = gen_transform_key s2 useExplicitLocalCoords.
Proof.
  intros (_ & _ & Htransforms & Hpersp). unfold gen_transform_key.
  rewrite <- Htransforms. apply gen_transform_key_loop_ext.
  intros i Hi. apply Hpersp. unfold numTransforms. lia.
Qed.

Lemma get_meta_key_ext caps p1 p2 transformKey b :
  encoded_alike caps p1 p2 ->
  get_meta_key p1 caps transformKey b = get_meta_key p2 caps transformKey b.
Proof. intros [Hclass Htex]. unfold get_meta_key. now rewrite Hclass, Htex. Qed.

Lemma fragment_stage_keys_ext caps requiresLocalCoordAttrib stages1 stages2 :
  Forall2 (same_fragment_stage (encoded_alike caps) caps) stages1 stages2 ->
  forall b,
    fragment_stage_keys stages1 caps requiresLocalCoordAttrib b
    = fragment_stage_keys stages2 caps requiresLocalCoordAttrib b.
Proof.
  induction 1 as [|s1 s2 rest1 rest2 Hstage _ IH]; intros b; [reflexivity|].
  cbn [fragment_stage_keys].
  rewrite (gen_transform_key_ext _ _ _ _ requiresLocalCoordAttrib Hstage).
  destruct Hstage as (Hproc & Hkey & _). rewrite Hkey.
  destruct (gen_transform_key s2 requiresLocalCoordAttrib) as [transformKey|f];
    [|reflexivity].
  cbn [bind]. rewrite (get_meta_key_ext _ _ _ _ _ Hproc).
  destruct (get_meta_key _ caps transformKey _) as [[fits b']|f]; [|reflexivity].
  cbn [bind fst snd]. destruct fits; cbn [negb]; [apply IH | reflexivity].
Qed.

Lemma processor_keys_ext optState1 descInfo1 drawType1 gpu1
    optState2 descInfo2 drawType2 gpu2 :
  pipelines_agree (encoded_alike (glCaps gpu1))
    optState1 descInfo1 drawType1 gpu1 optState2 descInfo2 drawType2 gpu2 ->
  processor_keys optState1 descInfo1 gpu1 = processor_keys optState2 descInfo2 gpu2.
Proof.
  intros (<- & <- & _ & Hprim & Hprimkey & Hstages & Hxp & Hxpkey & _).
  unfold processor_keys. cbv zeta.
  rewrite Hprimkey, (get_meta_key_ext _ _ _ _ _ Hprim).
  destruct (get_meta_key _ _ 0 _) as [[fits1 b1]|f]; [|reflexivity].
  cbn [bind fst snd]. destruct (negb fits1); [reflexivity|].
  rewrite (fragment_stage_keys_ext _ _ _ _ Hstages).
  destruct (fragment_stage_keys _ _ _ b1) as [[fits2 b2]|f]; [|reflexivity].
  cbn [bind fst snd]. destruct (negb fits2); [reflexivity|].
  rewrite Hxpkey. apply get_meta_key_ext, Hxp.
Qed.

Lemma header_image_ext R optState1 descInfo1 drawType1 gpu1
    optState2 descInfo2 drawType2 gpu2 :
  pipelines_agree R optState1 descInfo1 drawType1 gpu1
    optState2 descInfo2 drawType2 gpu2 ->
  header_image optState1 descInfo1 drawType1 gpu1
  = header_image optState2 descInfo2 drawType2 gpu2.
Proof.
  intros (<- & <- & Hpath & _ & _ & _ & _ & _ & Hgeom & Hdst & Htarget & Hcolor & Hcov).
  unfold header_image, write_header. cbv zeta.
  rewrite Hpath, Hgeom, Hdst, Htarget, Hcolor, Hcov.
  replace (bool_decide (is_Some (getDstCopy optState1)))
    with (bool_decide (is_Some (getDstCopy optState2))); [reflexivity|].
  destruct (getDstCopy optState1), (getDstCopy optState2); try discriminate;
    reflexivity.
Qed.

Lemma pipelines_agree_mono (R R' : GrProcessor -> GrProcessor -> Prop)
    optState1 descInfo1 drawType1 gpu1 optState2 descInfo2 drawType2 gpu2 :
  (forall p1 p2, R p1 p2 -> R' p1 p2) ->
  pipelines_agree R optState1 descInfo1 drawType1 gpu1
    optState2 descInfo2 drawType2 gpu2 ->
  pipelines_agree R' optState1 descInfo1 drawType1 gpu1
    optState2 descInfo2 drawType2 gpu2.
Proof.
  intros Himp (Hgpu & Hinfo & Hpath & Hprim & Hprimkey & Hstages & Hxp & Hrest).
  repeat (split; [first [assumption | now apply Himp]|]).
  split; [|split; [now apply Himp | exact Hrest]].
  eapply Forall2_impl; [exact Hstages|].
  intros s1 s2 (Hproc & Hstage). split; [now apply Himp | exact Hstage].
Qed.

Lemma gen_texture_key_loop_ext caps accesses1 :
  forall accesses2 (t : nat) (key : Z),
    map texture_configuration accesses1 = map texture_configuration accesses2 ->
    gen_texture_key_loop caps accesses1 t key = gen_texture_key_loop caps accesses2 t key.
Proof.
  induction accesses1 as [|a1 rest1 IH]; intros [|a2 rest2] t key Hmap;
    try discriminate; [reflexivity|].
  cbn [map] in Hmap. unfold texture_configuration at 1 3 in Hmap.
  injection Hmap as Hmask Hswizzle Hrest.
  cbn [gen_texture_key_loop]. rewrite Hmask, Hswizzle.
  destruct (swizzle_requires_alpha_remapping _ _ _); [|now apply IH].
  destruct (shl32 1 (Z.of_nat t)); [|reflexivity]. cbn [bind]. now apply IH.
Qed.

Lemma same_processor_encoded_alike caps p1 p2 :
  same_processor p1 p2 -> encoded_alike caps p1 p2.
Proof.
  intros [Hclass Htex]. split; [exact Hclass|].
  unfold gen_texture_key. now apply gen_texture_key_loop_ext.
Qed.

Lemma gen_texture_key_loop_no_remap caps accesses :
  Forall (fun access =>
            swizzle_requires_alpha_remapping caps
              (GrPixelConfigComponentMask (config (getTexture access)))
              (swizzleMask access) = false) accesses ->
  forall (t : nat) (key : Z), gen_texture_key_loop caps accesses t key = Ok key.
Proof.
  induction 1 as [|access rest Hfirst _ IH]; intros t key; [reflexivity|].
  cbn [gen_texture_key_loop]. rewrite Hfirst. apply IH.
Qed.

Lemma gen_texture_key_no_remap caps proc :
  no_remap caps proc -> gen_texture_key proc caps = Ok 0.
Proof. intros Hno. now apply gen_texture_key_loop_no_remap. Qed.

Lemma same_but_textures_encoded_alike caps p1 p2 :
  same_but_textures caps p1 p2 -> encoded_alike caps p1 p2.
Proof.
  intros (Hclass & Hno1 & Hno2). split; [exact Hclass|].
  now rewrite !gen_texture_key_no_remap.
Qed.

(** With texture swizzling in hardware nothing is remapped in the shader. *)
Lemma hardware_swizzle_no_remap caps proc :
  textureSwizzleSupport caps = true -> no_remap caps proc.
Proof.
  intros Hsupport. unfold no_remap. apply Forall_forall. intros access _.
  unfold swizzle_requires_alpha_remapping. now rewrite Hsupport.
Qed.

(** ** Failure discards the key *)

Lemma fragment_stage_keys_app caps requiresLocalCoordAttrib before rest :
  forall b,
    fragment_stage_keys (before ++ rest) caps requiresLocalCoordAttrib b
    = let* r := fragment_stage_keys before caps requiresLocalCoordAttrib b in
      if negb (fst r) then Ok (false, snd r)
      else fragment_stage_keys rest caps requiresLocalCoordAttrib (snd r).
Proof.
  induction before as [|fps before' IH]; intros b; [reflexivity|].
  cbn [app fragment_stage_keys].
  destruct (gen_transform_key fps requiresLocalCoordAttrib) as [transformKey|f];
    [|reflexivity].
  cbn [bind].
  destruct (get_meta_key _ caps transformKey _) as [[fits b']|f]; [|reflexivity].
  cbn [bind fst snd]. destruct fits; cbn [negb]; [apply IH | reflexivity].
Qed.

(** A fragment stage whose meta-key does not fit makes the loop fail. *)
Lemma fragment_stage_keys_failure caps requiresLocalCoordAttrib
    before fps rest b b_in transformKey b' :
  fragment_stage_keys before caps requiresLocalCoordAttrib b = Ok (true, b_in) ->
  gen_transform_key fps requiresLocalCoordAttrib = Ok transformKey ->
  get_meta_key (fp_proc (processor fps)) caps transformKey
    (emit_processor_key (fp_getGLProcessorKey (processor fps) caps) b_in)
  = Ok (false, b') ->
  fragment_stage_keys (before ++ fps :: rest) caps requiresLocalCoordAttrib b
  = Ok (false, b').
Proof.
  intros Hbefore Htransform Hmeta.
  rewrite fragment_stage_keys_app, Hbefore. cbn [bind fst snd negb fragment_stage_keys].
  rewrite Htransform. cbn [bind]. now rewrite Hmeta.
Qed.

(** C7. [Build] is atomic on a recoverable failure: when the meta-key of the
    primitive stage, of any fragment stage or of the transfer stage does not
    fit, [Build] resets the key to empty and returns false; and whenever it
    returns false the key it leaves is empty. *)
Theorem Build_failure_discards_key
    (optState : GrOptDrawState) (descInfo : DescInfo) (drawType : DrawType)
    (gpu : GrGLGpu) (uninit : nat -> Z) (desc : GrProgramDesc) :
  let caps := glCaps gpu in
  let requiresLocalCoordAttrib := fRequiresLocalCoordAttrib descInfo in
  let primProc := getPrimitiveProcessor optState in
  let xp := getXferProcessor optState in
  let b0 :=
    emit_processor_key (pp_getGLProcessorKey primProc (getBatchTracker optState) caps)
      (new_GrProcessorKeyBuilder
         (push_back_n kProcessorKeysOffset uninit (reset (fKey desc)))) in
  let failed := Ok (false, {| fKey := [] |}) in
  (forall d, Build optState descInfo drawType gpu uninit desc = Ok (false, d) ->
             fKey d = [])
  /\ (forall b',
        get_meta_key (pp_proc primProc) caps 0 b0 = Ok (false, b') ->
        Build optState descInfo drawType gpu uninit desc = failed)
  /\ (forall b1 before fps rest b_in transformKey b',
        get_meta_key (pp_proc primProc) caps 0 b0 = Ok (true, b1) ->
        fragmentStages optState = before ++ fps :: rest ->
        fragment_stage_keys before caps requiresLocalCoordAttrib b1 = Ok (true, b_in) ->
        gen_transform_key fps requiresLocalCoordAttrib = Ok transformKey ->
        get_meta_key (fp_proc (processor fps)) caps transformKey
          (emit_processor_key (fp_getGLProcessorKey (processor fps) caps) b_in)
        = Ok (false, b') ->
        Build optState descInfo drawType gpu uninit desc = failed)
  /\ (forall b1 b2 b',
        get_meta_key (pp_proc primProc) caps 0 b0 = Ok (true, b1) ->
        fragment_stage_keys (fragmentStages optState) caps requiresLocalCoordAttrib b1
        = Ok (true, b2) ->
        get_meta_key (xp_proc xp) caps 0
          (emit_processor_key (xp_getGLProcessorKey xp caps) b2)
        = Ok (false, b') ->
        Build optState descInfo drawType gpu uninit desc = failed).
Proof.
  cbv zeta. unfold Build. cbv zeta. repeat split.
  - intros d.
    destruct (get_meta_key (pp_proc _) _ 0 _) as [[fits1 b1]|f]; [|discriminate].
    cbn [bind fst snd]. destruct fits1; cbn [negb];
      [|intros [= <-]; reflexivity].
    destruct (fragment_stage_keys _ _ _ b1) as [[fits2 b2]|f]; [|discriminate].
    cbn [bind fst snd]. destruct fits2; cbn [negb];
      [|intros [= <-]; reflexivity].
    destruct (get_meta_key (xp_proc _) _ 0 _) as [[fits3 b3]|f]; [|discriminate].
    cbn [bind fst snd]. destruct fits3; cbn [negb];
      [|intros [= <-]; reflexivity].
    destruct (write_header _ _ _ _ _ _); discriminate.
  - intros b' Hprim. now rewrite Hprim.
  - intros b1 before fps rest b_in transformKey b' Hprim Hstages Hbefore Htransform Hmeta.
    rewrite Hprim. cbn [bind fst snd negb]. rewrite Hstages.
    now rewrite (fragment_stage_keys_failure _ _ _ _ _ _ _ _ _ Hbefore Htransform Hmeta).
  - intros b1 b2 b' Hprim Hstages Hxp.
    rewrite Hprim. cbn [bind fst snd negb]. rewrite Hstages. cbn [bind fst snd negb].
    now rewrite Hxp.
Qed.

(** ** The size field of the meta-keys *)



Lemma emit_processor_key_data words :
  forall b,
    fData (emit_processor_key words b) = fData b ++ concat (map le32 words)
    /\ fCount (emit_processor_key words b) = fCount b + Z.of_nat (length words).
Proof.
  unfold emit_processor_key. induction words as [|v rest IH]; intros b.
  - cbn. rewrite app_nil_r. split; [reflexivity | lia].
  - cbn [fold_left map concat length]. destruct (IH (add32 v b)) as [Hdata Hcount].
    rewrite Hdata, Hcount. unfold add32. cbn [fData fCount].
    rewrite <- app_assoc. split; [reflexivity | lia].
Qed.

Lemma length_concat_le32 words :
  length (concat (map le32 words)) = (4 * length words)%nat.
Proof.
  induction words as [|v rest IH]; [reflexivity|].
  cbn [map concat length]. rewrite length_app, IH, le32_length. lia.
Qed.










(** ** The texture key, bit by bit *)

Lemma testbit_above_bound key (k i : Z) :
  0 <= k -> 0 <= key < 2 ^ k -> k <= i -> Z.testbit key i = false.
Proof.
  intros Hk Hkey Hi.
  apply (proj1 (Z.bounded_iff_bits_nonneg' k key Hk (proj1 Hkey)) Hkey). exact Hi.
Qed.

(** The loop of [gen_texture_key] from slot [t] on: it keeps the bits below
    [t] and sets bit [t + i] exactly when access [i] needs a remap. *)
Lemma gen_texture_key_loop_bits caps accesses :
  forall (t : nat) (key : Z),
    (forall (i : nat) access, accesses !! i = Some access -> (32 <= t + i)%nat ->
                              needs_remap caps access = false) ->
    0 <= key ->
    (forall i : nat, (t <= i)%nat -> Z.testbit key (Z.of_nat i) = false) ->
    exists textureKey,
      gen_texture_key_loop caps accesses t key = Ok textureKey
      /\ 0 <= textureKey
      /\ forall i : nat,
           Z.testbit textureKey (Z.of_nat i)
           = if (i <? t)%nat then Z.testbit key (Z.of_nat i)
             else match accesses !! (i - t)%nat with
                  | Some access => needs_remap caps access
                  | None => false
                  end.
Proof.
  induction accesses as [|access rest IH]; intros t key Hshift Hkey Hclear.
  - exists key. split; [reflexivity|]. split; [exact Hkey|]. intros i.
    destruct (Nat.ltb_spec i t) as [Hlt | Hge]; [reflexivity|].
    rewrite lookup_nil. now apply Hclear.
  - cbn [gen_texture_key_loop]. fold (needs_remap caps access).
    assert (Hrest : forall (i : nat) a, rest !! i = Some a -> (32 <= S t + i)%nat ->
                                        needs_remap caps a = false).
    { intros i a Hi Hbound. apply (Hshift (S i) a Hi). lia. }
    destruct (needs_remap caps access) eqn:Hremap.
    + assert (Ht : (t < 32)%nat).
      { destruct (Nat.lt_ge_cases t 32) as [Hlt | Hge]; [exact Hlt|].
        rewrite (Hshift 0%nat access eq_refl) in Hremap by lia. discriminate. }
      rewrite shl32_in_range by lia. cbn [bind].
      rewrite Z.shiftl_1_l, u32_small
        by (split; [apply Z.pow_nonneg; lia | apply Z.pow_lt_mono_r; lia]).
      destruct (IH (S t) (Z.lor key (2 ^ Z.of_nat t)) Hrest) as (textureKey & Hloop & Hnn & Hbits).
      * apply Z.lor_nonneg. split; [exact Hkey | apply Z.pow_nonneg; lia].
      * intros i Hi. rewrite Z.lor_spec, Hclear, Z.pow2_bits_eqb by lia.
        cbn [orb]. apply Z.eqb_neq. lia.
      * exists textureKey. split; [exact Hloop|]. split; [exact Hnn|]. intros i.
        rewrite Hbits.
        destruct (Nat.ltb_spec i (S t)) as [HltS | HgeS];
          destruct (Nat.ltb_spec i t) as [Hlt | Hge]; try lia.
        -- rewrite Z.lor_spec, Z.pow2_bits_eqb by lia.
           replace (Z.of_nat t =? Z.of_nat i) with false
             by (symmetry; apply Z.eqb_neq; lia).
           apply orb_false_r.
        -- assert (i = t) by lia. subst i.
           rewrite Z.lor_spec, Z.pow2_bits_eqb, Z.eqb_refl, orb_true_r, Nat.sub_diag by lia.
           cbn [lookup list_lookup]. now rewrite Hremap.
        -- replace (i - t)%nat with (S (i - S t)) by lia. reflexivity.
    + destruct (IH (S t) key Hrest Hkey) as (textureKey & Hloop & Hnn & Hbits).
      * intros i Hi. apply Hclear. lia.
      * exists textureKey. split; [exact Hloop|]. split; [exact Hnn|]. intros i.
        rewrite Hbits.
        destruct (Nat.ltb_spec i (S t)) as [HltS | HgeS];
          destruct (Nat.ltb_spec i t) as [Hlt | Hge]; try lia.
        -- reflexivity.
        -- assert (i = t) by lia. subst i.
           rewrite Nat.sub_diag. cbn [lookup list_lookup]. rewrite Hremap.
           apply Hclear. lia.
        -- replace (i - t)%nat with (S (i - S t)) by lia. reflexivity.
Qed.

(** Bit [t] of the texture key says whether texture access [t] needs a remap. *)
Lemma gen_texture_key_testbit (proc : GrProcessor) (caps : GrGLCaps) :
  remaps_below_32 caps (textureAccesses proc) ->
  exists textureKey,
    gen_texture_key proc caps = Ok textureKey
    /\ 0 <= textureKey < 2 ^ 32
    /\ forall t : nat,
         Z.testbit textureKey (Z.of_nat t)
         = match textureAccesses proc !! t with
           | Some access => needs_remap caps access
           | None => false
           end.
Proof.
  intros Hshift. unfold gen_texture_key.
  destruct (gen_texture_key_loop_bits caps (textureAccesses proc) 0 0)
    as (textureKey & Hloop & Hnn & Hbits).
  - intros i access Hi Hbound. now apply (Hshift i access Hi).
  - lia.
  - intros i _. apply Z.bits_0.
  - exists textureKey. split; [exact Hloop|].
    split; [apply (gen_texture_key_loop_range caps (textureAccesses proc) 0 0);
            [lia | exact Hloop]|].
    intros t. rewrite Hbits. cbn [Nat.ltb Nat.leb]. now rewrite Nat.sub_0_r.
Qed.

(** A remap needed at index 32 or beyond ends the loop in the undefined shift. *)
Lemma gen_texture_key_loop_undefined caps accesses :
  forall (t : nat) (key : Z),
    (exists (i : nat) access,
        accesses !! i = Some access /\ (32 <= t + i)%nat
        /\ needs_remap caps access = true) ->
    gen_texture_key_loop caps accesses t key = Abort UndefinedShift.
Proof.
  induction accesses as [|access rest IH]; intros t key (i & a & Hi & Hbound & Hremap);
    [discriminate|].
  cbn [gen_texture_key_loop]. fold (needs_remap caps access).
  destruct i as [|i].
  - injection Hi as ->. rewrite Hremap, shl32_out_of_range by lia. reflexivity.
  - assert (Hrest : exists (j : nat) access',
               rest !! j = Some access' /\ (32 <= S t + j)%nat
               /\ needs_remap caps access' = true)
      by (exists i, a; repeat split; [exact Hi | lia | exact Hremap]).
    destruct (needs_remap caps access); [|now apply IH].
    destruct (shl32 1 (Z.of_nat t)) as [bit|f] eqn:Hshl.
    + cbn [bind]. now apply IH.
    + unfold shl32 in Hshl. destruct (_ && _); [discriminate|].
      injection Hshl as <-. reflexivity.
Qed.

(** X1. The texture key of a processor.  As long as no texture access from
    index 32 on needs a remap, [gen_texture_key] returns a key of 32 bits whose
    bit [t] says whether texture access [t] needs a remap, every bit from the
    number of textures on being clear.  A remap needed at index 32 or beyond is
    a shift of a 32-bit value by 32 bits or more, which is undefined. *)
Theorem gen_texture_key_bits (proc : GrProcessor) (caps : GrGLCaps) :
  (remaps_below_32 caps (textureAccesses proc) ->
   exists textureKey,
     gen_texture_key proc caps = Ok textureKey
     /\ 0 <= textureKey < 2 ^ 32
     /\ forall t : nat,
          Z.testbit textureKey (Z.of_nat t)
          = match textureAccesses proc !! t with
            | Some access => needs_remap caps access
            | None => false
            end)
  /\ (forall (t : nat) access,
        textureAccesses proc !! t = Some access ->
        (32 <= t)%nat ->
        needs_remap caps access = true ->
        gen_texture_key proc caps = Abort UndefinedShift).
Proof.
  split; [apply gen_texture_key_testbit|].
  intros t access Ht Hbound Hremap.
  apply gen_texture_key_loop_undefined. exists t, access.
  repeat split; [exact Ht | lia | exact Hremap].
Qed.

(** X2. The room of the texture key in the meta-key.  With at most 16 textures
    the texture key fits its 16 bits, whatever the textures.  A remap needed by
    a texture at index 16 or beyond (below 32) makes [get_meta_key] return
    false and leave the builder as it was. *)
Theorem texture_key_budget (proc : GrProcessor) (caps : GrGLCaps) :
  ((numTextures proc <= 16)%nat ->
   exists textureKey,
     gen_texture_key proc caps = Ok textureKey /\ 0 <= textureKey <= SK_MaxU16)
  /\ (forall (t : nat) access (transformKey : Z) (b : GrProcessorKeyBuilder),
        remaps_below_32 caps (textureAccesses proc) ->
        textureAccesses proc !! t = Some access ->
        (16 <= t)%nat ->
        needs_remap caps access = true ->
        0 <= transformKey < 2 ^ 32 ->
        0 <= classID proc < 2 ^ 32 ->
        0 <= fCount b ->
        get_meta_key proc caps transformKey b = Ok (false, b)).
Proof.
  split.
  - intros Hn. unfold numTextures in Hn.
    destruct (gen_texture_key_testbit proc caps) as (textureKey & Hkey & Hrange & Hbits).
    { intros t access Ht Hbound. apply lookup_lt_Some in Ht. lia. }
    exists textureKey. split; [exact Hkey|]. split; [lia|].
    assert (Hlt : textureKey < 2 ^ 16);
      [|change SK_MaxU16 with 65535; change (2 ^ 16) with 65536 in Hlt; lia].
    apply Z.bounded_iff_bits_nonneg; [lia | lia |]. intros l Hl.
    rewrite <- (Z2Nat.id l) by lia. rewrite Hbits.
    rewrite lookup_ge_None_2; [reflexivity | lia].
  - intros t access transformKey b Hshift Ht Hbound Hremap Htrans Hclass Hcount.
    destruct (gen_texture_key_testbit proc caps Hshift)
      as (textureKey & Hkey & Hrange & Hbits).
    destruct (get_meta_key_cases proc caps transformKey b textureKey
                Htrans Hclass Hcount Hkey) as [(Hfits & _) | [_ Hcall]];
      [|exact Hcall].
    exfalso. specialize (Hbits t). rewrite Ht, Hremap in Hbits.
    rewrite (testbit_above_bound textureKey 16) in Hbits; [discriminate | lia | | lia].
    change SK_MaxU16 with 65535 in Hfits. change (2 ^ 16) with 65536. lia.
Qed.

(** ** The room of the transform key in the meta-key *)

(** A transform whose key is at most 1, or 0, in terms of the transform. *)
Lemma coord_transform_key_small stage useExplicitLocalCoords t coordTransform :
  (coord_transform_key stage useExplicitLocalCoords t coordTransform <= 1
   <-> precision coordTransform = kLow_GrSLPrecision
       /\ sourceCoords coordTransform = kLocal_GrCoordSet
       /\ useExplicitLocalCoords = true)
  /\ (coord_transform_key stage useExplicitLocalCoords t coordTransform = 0
      <-> precision coordTransform = kLow_GrSLPrecision
          /\ sourceCoords coordTransform = kLocal_GrCoordSet
          /\ useExplicitLocalCoords = true
          /\ isPerspectiveCoordTransform stage t = false).
Proof.
  rewrite coord_transform_key_value.
  destruct (isPerspectiveCoordTransform stage t), (sourceCoords coordTransform),
    useExplicitLocalCoords, (precision coordTransform); cbn;
    (split;
     (split; [intros H; first [lia | repeat split; reflexivity]
             | intros H; first [lia | destruct_and!; discriminate]])).
Qed.

(** X3. The room of the transform key in the meta-key.  With at most six
    transforms the key of a stage fits the 16 bits of the meta-key exactly when
    every transform from the fourth on is a low-precision transform of explicit
    local coordinates, without perspective from the fifth on; with at most
    three transforms it always fits.  A key that does not fit makes
    [get_meta_key] return false and leave the builder as it was. *)
Theorem transform_key_budget (stage : GrPendingFragmentStage)
    (useExplicitLocalCoords : bool) :
  (numTransforms (processor stage) <= 6)%nat ->
  exists transformKey,
    gen_transform_key stage useExplicitLocalCoords = Ok transformKey
    /\ 0 <= transformKey < 2 ^ 30
    /\ (transformKey <= SK_MaxU16
        <-> forall (t : nat) coordTransform,
              coordTransforms (processor stage) !! t = Some coordTransform ->
              (3 <= t)%nat ->
              precision coordTransform = kLow_GrSLPrecision
              /\ sourceCoords coordTransform = kLocal_GrCoordSet
              /\ useExplicitLocalCoords = true
              /\ ((4 <= t)%nat -> isPerspectiveCoordTransform stage t = false))
    /\ ((numTransforms (processor stage) <= 3)%nat -> transformKey <= SK_MaxU16)
    /\ forall proc caps textureKey (b : GrProcessorKeyBuilder),
         gen_texture_key proc caps = Ok textureKey ->
         0 <= classID proc < 2 ^ 32 ->
         0 <= fCount b ->
         SK_MaxU16 < transformKey ->
         get_meta_key proc caps transformKey b = Ok (false, b).
Proof.
  intros Hn. rewrite gen_transform_key_packed by exact Hn.
  eexists. split; [reflexivity|].
  unfold numTransforms in *.
  pose proof (coord_transform_key_range stage useExplicitLocalCoords) as Hr.
  pose proof (coord_transform_key_small stage useExplicitLocalCoords) as Hsmall.
  change (2 ^ kTransformKeyBits) with 32 in Hr.
  change SK_MaxU16 with 65535. change (2 ^ 30) with 1073741824.
  set (field := coord_transform_key stage useExplicitLocalCoords) in *.
  assert (Hrange : 0 <= packed_transform_keys stage useExplicitLocalCoords
                          (coordTransforms (processor stage)) 0 < 1073741824).
  { destruct (coordTransforms (processor stage))
      as [|c0 [|c1 [|c2 [|c3 [|c4 [|c5 [|c6 rest]]]]]]];
      cbn [length] in Hn; try lia; cbn [packed_transform_keys];
      change (2 ^ kTransformKeyBits) with 32; fold field;
      try pose proof (Hr 0%nat c0); try pose proof (Hr 1%nat c1);
      try pose proof (Hr 2%nat c2); try pose proof (Hr 3%nat c3);
      try pose proof (Hr 4%nat c4); try pose proof (Hr 5%nat c5); lia. }
  split; [exact Hrange|]. split; [|split].
  - split.
    + intros Hle t coordTransform Ht Hthree.
      assert (Hfield : field t coordTransform <= 1
                       /\ ((4 <= t)%nat -> field t coordTransform = 0)).
      { destruct (coordTransforms (processor stage))
          as [|c0 [|c1 [|c2 [|c3 [|c4 [|c5 [|c6 rest]]]]]]];
          cbn [length] in Hn; try lia;
          cbn [packed_transform_keys] in Hle;
          change (2 ^ kTransformKeyBits) with 32 in Hle; fold field in Hle;
          do 3 (destruct t as [|t]; [lia|]);
          repeat (destruct t as [|t]; [injection Ht as <-|]); try discriminate;
          try pose proof (Hr 0%nat c0); try pose proof (Hr 1%nat c1);
          try pose proof (Hr 2%nat c2); try pose proof (Hr 3%nat c3);
          try pose proof (Hr 4%nat c4); try pose proof (Hr 5%nat c5); lia. }
      destruct Hfield as [Hone Hzero].
      apply (Hsmall t coordTransform) in Hone as (Hp & Hs & He).
      repeat (split; [assumption|]).
      intros Hfour. apply Hzero, (Hsmall t coordTransform) in Hfour. apply Hfour.
    + intros Hall.
      assert (Hfield : forall (t : nat) coordTransform,
                 coordTransforms (processor stage) !! t = Some coordTransform ->
                 (3 <= t)%nat ->
                 field t coordTransform <= 1
                 /\ ((4 <= t)%nat -> field t coordTransform = 0)).
      { intros t coordTransform Ht Hthree.
        destruct (Hall t coordTransform Ht Hthree) as (Hp & Hs & He & Hpersp).
        split; [apply (Hsmall t coordTransform); auto|].
        intros Hfour. apply (Hsmall t coordTransform). auto. }
      clear Hall.
      destruct (coordTransforms (processor stage))
        as [|c0 [|c1 [|c2 [|c3 [|c4 [|c5 [|c6 rest]]]]]]];
        cbn [length] in Hn; try lia;
        cbn [packed_transform_keys];
        change (2 ^ kTransformKeyBits) with 32; fold field;
        try pose proof (Hr 0%nat c0); try pose proof (Hr 1%nat c1);
        try pose proof (Hr 2%nat c2);
        try pose proof (Hfield 3%nat c3 eq_refl ltac:(lia));
        try pose proof (Hfield 4%nat c4 eq_refl ltac:(lia));
        try pose proof (Hfield 5%nat c5 eq_refl ltac:(lia)); lia.
  - intros Hthree.
    destruct (coordTransforms (processor stage)) as [|c0 [|c1 [|c2 [|c3 rest]]]];
      cbn [length] in Hthree; try lia; cbn [packed_transform_keys];
      change (2 ^ kTransformKeyBits) with 32; fold field;
      try pose proof (Hr 0%nat c0); try pose proof (Hr 1%nat c1);
      try pose proof (Hr 2%nat c2); lia.
  - intros proc caps textureKey b Htex Hclass Hcount Hwide.
    assert (Hword : 0 <= packed_transform_keys stage useExplicitLocalCoords
                           (coordTransforms (processor stage)) 0 < 2 ^ 32)
      by (change (2 ^ 32) with 4294967296; lia).
    destruct (get_meta_key_cases proc caps _ b textureKey Hword Hclass Hcount Htex)
      as [(_ & Hfits & _) | [_ Hcall]]; [|exact Hcall].
    change SK_MaxU16 with 65535 in Hfits. lia.
Qed.

(** ** What the local coordinates flag reaches *)

Lemma gen_transform_key_loop_device stage transforms :
  Forall (fun coordTransform => sourceCoords coordTransform = kDevice_GrCoordSet)
         transforms ->
  forall (e1 e2 : bool) (t : nat) (totalKey : Z),
    gen_transform_key_loop stage e1 transforms t totalKey
    = gen_transform_key_loop stage e2 transforms t totalKey.
Proof.
  induction 1 as [|coordTransform rest Hdevice _ IH]; intros e1 e2 t totalKey;
    [reflexivity|].
  cbn [gen_transform_key_loop].
  assert (Hkey : coord_transform_key stage e1 t coordTransform
                 = coord_transform_key stage e2 t coordTransform)
    by (unfold coord_transform_key; rewrite Hdevice; reflexivity).
  rewrite Hkey. destruct (shl32 _ _) as [key|f]; [|reflexivity]. cbn [bind].
  destruct (sk_assert _ _); [|reflexivity]. cbn [bind]. apply IH.
Qed.

Lemma fragment_stage_keys_device caps stages :
  Forall (fun fps =>
            Forall (fun coordTransform =>
                      sourceCoords coordTransform = kDevice_GrCoordSet)
                   (coordTransforms (processor fps))) stages ->
  forall (e1 e2 : bool) b,
    fragment_stage_keys stages caps e1 b = fragment_stage_keys stages caps e2 b.
Proof.
  induction 1 as [|fps rest Hdevice _ IH]; intros e1 e2 b; [reflexivity|].
  cbn [fragment_stage_keys]. unfold gen_transform_key.
  rewrite (gen_transform_key_loop_device fps _ Hdevice e1 e2).
  destruct (gen_transform_key_loop fps e2 _ 0 0) as [transformKey|f]; [|reflexivity].
  cbn [bind]. destruct (get_meta_key _ caps transformKey _) as [[fits b']|f];
    [|reflexivity].
  cbn [bind fst snd]. destruct fits; cbn [negb]; [apply IH | reflexivity].
Qed.

(** X4. [fRequiresLocalCoordAttrib] reaches the key through the transforms
    that start from local coordinates only: on a pipeline all of whose
    transforms start from device coordinates, two descriptions that agree on
    the other two flags get the same result from [Build], key included. *)
Theorem Build_ignores_local_coords_flag
    (optState : GrOptDrawState) (descInfo1 descInfo2 : DescInfo)
    (drawType : DrawType) (gpu : GrGLGpu) (uninit : nat -> Z) (desc : GrProgramDesc) :
  device_sourced_only optState ->
  fReadsDst descInfo1 = fReadsDst descInfo2 ->
  fReadsFragPosition descInfo1 = fReadsFragPosition descInfo2 ->
  Build optState descInfo1 drawType gpu uninit desc
  = Build optState descInfo2 drawType gpu uninit desc.
Proof.
  intros Hdevice Hdst Hpos. unfold Build. cbv zeta.
  destruct (get_meta_key _ _ 0 _) as [[fits1 b1]|f]; [|reflexivity].
  cbn [bind fst snd]. destruct (negb fits1); [reflexivity|].
  rewrite (fragment_stage_keys_device _ _ Hdevice
             (fRequiresLocalCoordAttrib descInfo1) (fRequiresLocalCoordAttrib descInfo2)).
  destruct (fragment_stage_keys _ _ _ _) as [[fits2 b2]|f]; [|reflexivity].
  cbn [bind fst snd]. destruct (negb fits2); [reflexivity|].
  destruct (get_meta_key _ _ 0 _) as [[fits3 b3]|f]; [|reflexivity].
  cbn [bind fst snd]. destruct (negb fits3); [reflexivity|].
  unfold write_header. cbv zeta. rewrite Hdst, Hpos. reflexivity.
Qed.

(** ** The format of the processor keys *)

Lemma gen_transform_key_loop_range stage useExplicitLocalCoords transforms :
  forall (t : nat) (totalKey key : Z),
    0 <= totalKey < 2 ^ 32 ->
    gen_transform_key_loop stage useExplicitLocalCoords transforms t totalKey = Ok key ->
    0 <= key < 2 ^ 32.
Proof.
  induction transforms as [|coordTransform rest IH]; intros t totalKey key Htotal Hloop.
  - injection Hloop as <-. exact Htotal.
  - cbn [gen_transform_key_loop] in Hloop.
    destruct (shl32 _ _) as [shifted|f] eqn:Hshl; [|discriminate].
    cbn [bind] in Hloop. destruct (sk_assert _ _); [|discriminate].
    cbn [bind] in Hloop. apply (IH _ _ _) in Hloop; [exact Hloop|].
    apply lor_range; [lia | exact Htotal |].
    unfold shl32 in Hshl. destruct (_ && _); [|discriminate].
    injection Hshl as <-. apply u32_range.
Qed.

Lemma gen_transform_key_range stage useExplicitLocalCoords key :
  gen_transform_key stage useExplicitLocalCoords = Ok key -> 0 <= key < 2 ^ 32.
Proof.
  apply gen_transform_key_loop_range. change (2 ^ 32) with 4294967296. lia.
Qed.

Lemma length_stage_bytes start s : length (stage_bytes start s) = stage_size s.
Proof.
  unfold stage_bytes, stage_size.
  rewrite !length_app, length_concat_le32, !le32_length. lia.
Qed.

Lemma stages_bytes_app stages more :
  forall start,
    stages_bytes start (stages ++ more)
    = stages_bytes start stages
      ++ stages_bytes (start + length (stages_bytes start stages)) more.
Proof.
  induction stages as [|s rest IH]; intros start; cbn [app stages_bytes length].
  - now rewrite Nat.add_0_r.
  - rewrite IH, <- app_assoc, length_app, length_stage_bytes, Nat.add_assoc.
    reflexivity.
Qed.

(** One stage more: its private key, then its meta-key. *)
Lemma laid_out_stage proc caps transformKey words b b' stages :
  0 <= classID proc < 2 ^ 32 ->
  0 <= transformKey < 2 ^ 32 ->
  laid_out b stages ->
  get_meta_key proc caps transformKey (emit_processor_key words b) = Ok (true, b') ->
  exists s,
    encodes caps (proc, words, Ok transformKey) s /\ laid_out b' (stages ++ [s]).
Proof.
  intros Hclass Htrans (Hcount & Hcounted & Hdata & Hfit & Hroom) Hmeta.
  destruct (emit_processor_key_data words b) as [Hemit Hemitted].
  destruct (gen_texture_key proc caps) as [textureKey|f] eqn:Htex;
    [|unfold get_meta_key in Hmeta; rewrite Htex in Hmeta; discriminate].
  pose proof (gen_texture_key_range _ _ _ Htex) as Htexr.
  destruct (get_meta_key_cases proc caps transformKey (emit_processor_key words b)
              textureKey Htrans Hclass ltac:(lia) Htex)
    as [(Ha & Hb & Hc & Hsize & Hcall) | [_ Hcall]]; [|congruence].
  rewrite Hcall in Hmeta. injection Hmeta as <-.
  exists {| sk_words := words; sk_textureKey := textureKey;
            sk_transformKey := transformKey; sk_classID := classID proc |}.
  split; [repeat split; assumption|].
  unfold size in *. rewrite Hemitted in *.
  unfold laid_out, add32n. cbn [fData fCount map concat length].
  rewrite Hemit, Hemitted, app_nil_r, stages_bytes_app, <- Hdata.
  cbn [stages_bytes Nat.add]. rewrite app_nil_r.
  unfold stage_bytes. cbn [sk_words sk_textureKey sk_transformKey sk_classID].
  rewrite !length_app, length_concat_le32, !le32_length.
  split; [lia|]. split; [lia|]. split.
  - rewrite <- !app_assoc. do 3 f_equal. f_equal. lia.
  - split; [|lia]. apply Forall_app. split; [exact Hfit|].
    constructor; [|constructor].
    unfold fields_fit. cbn [sk_textureKey sk_transformKey sk_classID]. lia.
Qed.

Lemma laid_out_fragment_stages caps requiresLocalCoordAttrib fragments :
  Forall (fun fps => 0 <= classID (fp_proc (processor fps)) < 2 ^ 32) fragments ->
  forall b b' stages,
    laid_out b stages ->
    fragment_stage_keys fragments caps requiresLocalCoordAttrib b = Ok (true, b') ->
    exists more,
      Forall2 (encodes caps)
        (map (fun fps =>
                (fp_proc (processor fps), fp_getGLProcessorKey (processor fps) caps,
                 gen_transform_key fps requiresLocalCoordAttrib)) fragments)
        more
      /\ laid_out b' (stages ++ more).
Proof.
  induction 1 as [|fps rest Hclass _ IH]; intros b b' stages Hlaid Hloop.
  - injection Hloop as <-. exists []. split; [constructor|]. now rewrite app_nil_r.
  - cbn [fragment_stage_keys] in Hloop.
    destruct (gen_transform_key fps requiresLocalCoordAttrib) as [transformKey|f]
      eqn:Htrans; [|discriminate].
    cbn [bind] in Hloop.
    destruct (get_meta_key _ caps transformKey _) as [[fits b1]|f] eqn:Hmeta;
      [|discriminate].
    cbn [bind fst snd] in Hloop. destruct fits; cbn [negb] in Hloop; [|discriminate].
    destruct (laid_out_stage _ _ _ _ _ _ _ Hclass (gen_transform_key_range _ _ _ Htrans)
                Hlaid Hmeta) as (s & Hs & Hlaid1).
    destruct (IH _ _ _ Hlaid1 Hloop) as (more & Hmore & Hlaid2).
    exists (s :: more). cbn [map]. split.
    + constructor; [|exact Hmore]. rewrite Htrans. exact Hs.
    + now rewrite cons_middle, app_assoc.
Qed.

(** The processor keys of a pipeline are its stages one behind the other. *)
Lemma processor_keys_laid_out optState descInfo gpu b :
  class_ids_32_bits optState ->
  processor_keys optState descInfo gpu = Ok (true, b) ->
  exists stages,
    Forall2 (encodes (glCaps gpu)) (pipeline_stages optState descInfo gpu) stages
    /\ laid_out b stages.
Proof.
  intros (Hprimclass & Hfragclass & Hxpclass).
  unfold processor_keys, pipeline_stages. cbv zeta. intros Hkeys.
  assert (Hzero : 0 <= 0 < 2 ^ 32) by (change (2 ^ 32) with 4294967296; lia).
  assert (Hstart : laid_out (new_GrProcessorKeyBuilder []) []).
  { unfold laid_out. cbn. change SK_MaxU16 with 65535.
    repeat split; try lia; constructor. }
  destruct (get_meta_key (pp_proc _) _ 0 _) as [[fits1 b1]|f] eqn:Hprim;
    [|discriminate].
  cbn [bind fst snd] in Hkeys. destruct fits1; cbn [negb] in Hkeys; [|discriminate].
  destruct (laid_out_stage _ _ _ _ _ _ _ Hprimclass Hzero Hstart Hprim)
    as (s1 & Hs1 & Hlaid1).
  destruct (fragment_stage_keys _ _ _ b1) as [[fits2 b2]|f] eqn:Hstages;
    [|discriminate].
  cbn [bind fst snd] in Hkeys. destruct fits2; cbn [negb] in Hkeys; [|discriminate].
  destruct (laid_out_fragment_stages _ _ _ Hfragclass _ _ _ Hlaid1 Hstages)
    as (more & Hmore & Hlaid2).
  destruct (laid_out_stage _ _ _ _ _ _ _ Hxpclass Hzero Hlaid2 Hkeys)
    as (s3 & Hs3 & Hlaid3).
  exists (s1 :: more ++ [s3]). split.
  - constructor; [exact Hs1|]. apply Forall2_app; [exact Hmore|].
    constructor; [exact Hs3 | constructor].
  - cbn [app] in Hlaid3. exact Hlaid3.
Qed.

(** *** Reading the stages back *)

Lemma le32_inj a b : le32 a = le32 b -> u32 a = u32 b.
Proof. intros H. rewrite <- !le_value_le32. now rewrite H. Qed.

Lemma concat_le32_inj words1 :
  forall words2,
    length words1 = length words2 ->
    concat (map le32 words1) = concat (map le32 words2) ->
    map u32 words1 = map u32 words2.
Proof.
  induction words1 as [|w1 rest1 IH]; intros [|w2 rest2] Hlen Hbytes;
    try discriminate; [reflexivity|].
  cbn [map concat] in *.
  apply app_inj_1 in Hbytes as [Hword Hrest]; [|now rewrite !le32_length].
  rewrite (le32_inj _ _ Hword). f_equal. apply IH; [|exact Hrest].
  cbn [length] in Hlen. lia.
Qed.

Lemma stage_bytes_inj start s1 s2 :
  length (sk_words s1) = length (sk_words s2) ->
  fields_fit s1 -> fields_fit s2 ->
  Z.of_nat (start + 4 * length (sk_words s1)) <= SK_MaxU16 ->
  stage_bytes start s1 = stage_bytes start s2 ->
  held_alike s1 s2.
Proof.
  unfold fields_fit, stage_bytes. change SK_MaxU16 with 65535.
  intros Hlen (Ht1 & Hk1 & Hc1) (Ht2 & Hk2 & Hc2) Hoff Hbytes.
  apply app_inj_1 in Hbytes as [Hwords Hmeta];
    [|rewrite !length_concat_le32; lia].
  apply app_inj_1 in Hmeta as [Hword0 Hword1]; [|now rewrite !le32_length].
  apply le32_inj in Hword0, Hword1. rewrite <- Hlen in Hword1.
  change (2 ^ 16) with 65536 in *.
  rewrite !u32_small in Hword0, Hword1 by (change (2 ^ 32) with 4294967296; lia).
  split; [now apply concat_le32_inj|]. repeat split; lia.
Qed.

Lemma stages_bytes_inj stages1 :
  forall stages2 start,
    Forall2 (fun s1 s2 => length (sk_words s1) = length (sk_words s2)) stages1 stages2 ->
    Forall fields_fit stages1 -> Forall fields_fit stages2 ->
    Z.of_nat (start + length (stages_bytes start stages1)) <= SK_MaxU16 + 8 ->
    stages_bytes start stages1 = stages_bytes start stages2 ->
    Forall2 held_alike stages1 stages2.
Proof.
  induction stages1 as [|s1 rest1 IH]; intros stages2 start Hshape Hfit1 Hfit2 Hroom Hbytes;
    inversion Hshape as [|? s2 ? rest2 Hlen Hrest]; subst; [constructor|].
  inversion Hfit1 as [|? ? Hs1 Hr1]; subst. inversion Hfit2 as [|? ? Hs2 Hr2]; subst.
  cbn [stages_bytes] in *. rewrite length_app, length_stage_bytes in Hroom.
  assert (Hsize : stage_size s1 = stage_size s2) by (unfold stage_size; lia).
  apply app_inj_1 in Hbytes as [Hstage Hmore];
    [|rewrite !length_stage_bytes; exact Hsize].
  constructor.
  - apply (stage_bytes_inj start); try assumption. unfold stage_size in Hroom. lia.
  - apply (IH rest2 (start + stage_size s1)%nat); try assumption; [lia|].
    now rewrite Hsize at 2.
Qed.


(** The stages a key holds have the private key sizes of the pipeline. *)
Lemma encodes_private_key_sizes optState descInfo gpu stages :
  Forall2 (encodes (glCaps gpu)) (pipeline_stages optState descInfo gpu) stages ->
  map (fun s => (4 * length (sk_words s))%nat) stages = private_key_sizes optState gpu.
Proof.
  unfold pipeline_stages, private_key_sizes.
  generalize (fragmentStages optState). intros fragments Hstages.
  inversion Hstages as [|? s1 ? more (Hwords & _) Hmore]; subst.
  cbn [map fst snd] in *. rewrite Hwords. f_equal.
  clear Hstages Hwords. revert more Hmore.
  induction fragments as [|fps rest IH]; intros more Hmore; cbn [map app] in *.
  - inversion Hmore as [|? s3 ? none (Hwords & _) Hnone]; subst.
    inversion Hnone; subst. cbn [map fst snd] in *. now rewrite Hwords.
  - inversion Hmore as [|? s ? more' (Hwords & _) Hmore']; subst.
    cbn [map fst snd] in *. rewrite Hwords. f_equal. now apply IH.
Qed.

Lemma encodes_held_alike caps1 caps2 stages1 :
  forall pipeline1 pipeline2 stages2,
    Forall2 (encodes caps1) pipeline1 stages1 ->
    Forall2 (encodes caps2) pipeline2 stages2 ->
    Forall2 held_alike stages1 stages2 ->
    Forall2 (stage_keys_agree caps1 caps2) pipeline1 pipeline2.
Proof.
  induction stages1 as [|s1 rest1 IH]; intros pipeline1 pipeline2 stages2 H1 H2 Halike;
    inversion Halike as [|? s2 ? rest2 (Hw & Ht & Hk & Hc) Hrest]; subst;
    inversion H1 as [|p1 ? more1 ? (Hw1 & Ht1 & Hk1 & Hc1) Hmore1]; subst;
    inversion H2 as [|p2 ? more2 ? (Hw2 & Ht2 & Hk2 & Hc2) Hmore2]; subst;
    constructor.
  - unfold stage_keys_agree.
    rewrite <- Hc1, <- Hc2, Ht1, Ht2, Hk1, Hk2, <- Hw1, <- Hw2, Ht, Hk, Hc, Hw.
    repeat split.
  - now apply (IH more1 more2 rest2).
Qed.

Lemma equal_sizes_equal_lengths stages1 :
  forall stages2,
    map (fun s => (4 * length (sk_words s))%nat) stages1
    = map (fun s => (4 * length (sk_words s))%nat) stages2 ->
    Forall2 (fun s1 s2 => length (sk_words s1) = length (sk_words s2)) stages1 stages2.
Proof.
  induction stages1 as [|s1 rest1 IH]; intros [|s2 rest2] Hsizes; try discriminate;
    constructor.
  - cbn [map] in Hsizes. injection Hsizes as Hsize _. lia.
  - apply IH. cbn [map] in Hsizes. now injection Hsizes as _ Hrest.
Qed.




(** ** The ways [Build] ends *)

Lemma get_meta_key_returns proc caps transformKey b :
  remaps_below_32 caps (textureAccesses proc) ->
  exists r, get_meta_key proc caps transformKey b = Ok r.
Proof.
  intros Hshift.
  destruct (gen_texture_key_testbit proc caps Hshift) as (textureKey & Hkey & _).
  unfold get_meta_key. rewrite Hkey. cbn [bind].
  destruct (negb _); [eexists; reflexivity|].
  destruct (_ <? _); eexists; reflexivity.
Qed.

Lemma fragment_stage_keys_returns caps requiresLocalCoordAttrib stages :
  Forall (fun fps =>
            (numTransforms (processor fps) <= 7)%nat
            /\ remaps_below_32 caps (textureAccesses (fp_proc (processor fps))))
         stages ->
  forall b, exists r, fragment_stage_keys stages caps requiresLocalCoordAttrib b = Ok r.
Proof.
  induction 1 as [|fps rest [Hcount Hshift] _ IH]; intros b; [eexists; reflexivity|].
  cbn [fragment_stage_keys]. unfold gen_transform_key, numTransforms in *.
  rewrite gen_transform_key_loop_sum by (simpl; lia). cbn [bind].
  match goal with
  | |- context [get_meta_key ?p ?c ?k ?b] =>
      destruct (get_meta_key_returns p c k b Hshift) as [[fits b'] Hmeta]
  end.
  rewrite Hmeta. cbn [bind fst snd].
  destruct (negb fits); [eexists; reflexivity | apply IH].
Qed.

(** The processor keys are made, whether they fit or not, when no shift is
    undefined. *)
Lemma processor_keys_returns optState descInfo gpu :
  shifts_defined optState gpu ->
  exists r, processor_keys optState descInfo gpu = Ok r.
Proof.
  intros (Hprim & Hstages & Hxp). unfold processor_keys. cbv zeta.
  match goal with
  | |- context [get_meta_key ?p ?c 0 ?b] =>
      destruct (get_meta_key_returns p c 0 b Hprim) as [[fits1 b1] Hmeta1]
  end.
  rewrite Hmeta1. cbn [bind fst snd]. destruct (negb fits1); [eexists; reflexivity|].
  destruct (fragment_stage_keys_returns (glCaps gpu)
              (fRequiresLocalCoordAttrib descInfo) _ Hstages b1) as [[fits2 b2] Hloop].
  rewrite Hloop. cbn [bind fst snd]. destruct (negb fits2); [eexists; reflexivity|].
  now apply get_meta_key_returns.
Qed.

(** X5. The assertions of [Build].  Where no shift of the key encoders is
    undefined, the overlap assertion of the transform keys does not fail.
    Processor keys that do not fit make [Build] return false whatever the
    header would assert.  Once they fit, a path-rendering draw on capabilities
    that support it with a geometry processor fails the first header
    assertion; otherwise a destination read with neither a copy of the
    destination nor support for reading it in the shader fails the second. *)
Theorem Build_header_assertions
    (optState : GrOptDrawState) (descInfo : DescInfo) (drawType : DrawType)
    (gpu : GrGLGpu) (uninit : nat -> Z) (desc : GrProgramDesc) :
  let usesNvpr := pathRenderingSupport (caps gpu) && IsPathRenderingDrawType drawType in
  (shifts_defined optState gpu ->
   Build optState descInfo drawType gpu uninit desc
   <> Abort (AssertionFailed TransformKeysOverlap))
  /\ (forall b,
        processor_keys optState descInfo gpu = Ok (false, b) ->
        Build optState descInfo drawType gpu uninit desc = Ok (false, {| fKey := [] |}))
  /\ (forall b,
        processor_keys optState descInfo gpu = Ok (true, b) ->
        usesNvpr = true ->
        hasGeometryProcessor optState = true ->
        Build optState descInfo drawType gpu uninit desc
        = Abort (AssertionFailed NvprWithGeometryProcessor))
  /\ (forall b,
        processor_keys optState descInfo gpu = Ok (true, b) ->
        (usesNvpr = true -> hasGeometryProcessor optState = false) ->
        fReadsDst descInfo = true ->
        getDstCopy optState = None ->
        dstReadInShaderSupport (caps gpu) = false ->
        Build optState descInfo drawType gpu uninit desc
        = Abort (AssertionFailed NoDstReadSource)).
Proof.
  cbv zeta. rewrite Build_processor_keys. split; [|split; [|split]].
  - intros Hshifts.
    destruct (processor_keys_returns optState descInfo gpu Hshifts) as [[fits b] Hkeys].
    rewrite Hkeys. cbn [bind fst snd].
    destruct (negb fits); [discriminate|].
    unfold write_header. cbv zeta.
    destruct (pathRenderingSupport (caps gpu) && IsPathRenderingDrawType drawType);
      [destruct (hasGeometryProcessor optState); cbn [sk_assert negb bind];
       [discriminate|]|];
      (destruct (fReadsDst descInfo);
       [destruct (bool_decide _ || _); cbn [sk_assert bind]; [|discriminate];
        destruct (negb _); cbn [sk_assert bind]; discriminate
       |cbn [bind]; discriminate]).
  - intros b Hkeys. now rewrite Hkeys.
  - intros b Hkeys Hnvpr Hgeometry. rewrite Hkeys. cbn [bind fst snd negb].
    unfold write_header. cbv zeta. now rewrite Hnvpr, Hgeometry.
  - intros b Hkeys Hnvpr Hreads Hcopy Hsupport. rewrite Hkeys. cbn [bind fst snd negb].
    unfold write_header. cbv zeta. rewrite Hreads, Hcopy, Hsupport.
    destruct (pathRenderingSupport (caps gpu) && IsPathRenderingDrawType drawType);
      [rewrite Hnvpr by reflexivity|]; reflexivity.
Qed.

(** ** What the header statements do not read *)

(** X6. The key is canonical in what does not reach the program: two inputs
    with the same stages get the same result from [Build] when they differ only
    in the draw type on capabilities without path rendering (or between two
    draw types of the same kind), in the geometry processor flag outside a
    path-rendering draw, in the copy of the destination without a destination
    read, or in the render target without a read of the fragment position. *)
Theorem Build_canonical_in_unread_inputs
    (optState1 : GrOptDrawState) (drawType1 : DrawType)
    (optState2 : GrOptDrawState) (drawType2 : DrawType)
    (descInfo : DescInfo) (gpu : GrGLGpu) (uninit : nat -> Z) (desc : GrProgramDesc) :
  same_but_unread optState1 drawType1 optState2 drawType2 descInfo gpu ->
  Build optState1 descInfo drawType1 gpu uninit desc
  = Build optState2 descInfo drawType2 gpu uninit desc.
Proof.
  intros (Hprim & Htracker & Hstages & Hxp & Hcolor & Hcoverage & Hnvpr & Hdst & Hpos).
  rewrite !Build_processor_keys.
  assert (Hkeys : processor_keys optState1 descInfo gpu
                  = processor_keys optState2 descInfo gpu)
    by (unfold processor_keys; now rewrite Hprim, Htracker, Hstages, Hxp).
  rewrite Hkeys.
  destruct (processor_keys optState2 descInfo gpu) as [[fits b]|f]; [|reflexivity].
  cbn [bind fst snd]. destruct (negb fits); [reflexivity|].
  assert (Hheader : forall key,
            write_header kHeaderOffset optState1 descInfo drawType1 gpu key
            = write_header kHeaderOffset optState2 descInfo drawType2 gpu key);
    [|now rewrite Hheader].
  intros key. unfold write_header. cbv zeta. rewrite Hcolor, Hcoverage.
  assert (Hfirst :
            (if pathRenderingSupport (caps gpu) && IsPathRenderingDrawType drawType1
             then
               let* _ := sk_assert (negb (hasGeometryProcessor optState1))
                           NvprWithGeometryProcessor in
               Ok (store8 (kHeaderOffset + at_fUseNvpr layout) 1
                     (memset kHeaderOffset 0 kHeaderSize key))
             else Ok (store8 (kHeaderOffset + at_fUseNvpr layout) 0
                        (memset kHeaderOffset 0 kHeaderSize key)))
            = (if pathRenderingSupport (caps gpu) && IsPathRenderingDrawType drawType2
               then
                 let* _ := sk_assert (negb (hasGeometryProcessor optState2))
                             NvprWithGeometryProcessor in
                 Ok (store8 (kHeaderOffset + at_fUseNvpr layout) 1
                       (memset kHeaderOffset 0 kHeaderSize key))
               else Ok (store8 (kHeaderOffset + at_fUseNvpr layout) 0
                          (memset kHeaderOffset 0 kHeaderSize key)))).
  { destruct (pathRenderingSupport (caps gpu)); [|reflexivity].
    destruct (Hnvpr eq_refl) as [Hpath Hgeometry]. rewrite <- Hpath.
    destruct (IsPathRenderingDrawType drawType1); [|reflexivity].
    now rewrite (Hgeometry eq_refl). }
  rewrite Hfirst.
  destruct (if pathRenderingSupport (caps gpu) && IsPathRenderingDrawType drawType2
            then _ else _) as [key1|f]; [|reflexivity].
  cbn [bind].
  destruct (fReadsDst descInfo); [rewrite (Hdst eq_refl)|];
    (destruct (fReadsFragPosition descInfo); [rewrite (Hpos eq_refl)|]; reflexivity).
Qed.

(** ** The header statements touch the header zone only *)

(** Every field of the header lies inside the header. *)
Hypothesis layout_fields :
  Forall (fun at_field => (at_field < kHeaderSize)%nat) (header_fields layout).

Lemma header_field_bounds :
  (at_fUseNvpr layout < kHeaderSize)%nat
  /\ (at_fDstReadKey layout < kHeaderSize)%nat
  /\ (at_fFragPosKey layout < kHeaderSize)%nat
  /\ (at_fColorEffectCnt layout < kHeaderSize)%nat
  /\ (at_fCoverageEffectCnt layout < kHeaderSize)%nat.
Proof using layout_fields.
  pose proof layout_fields as Hall. unfold header_fields in Hall.
  repeat (apply Forall_cons in Hall as [? Hall]). repeat split; assumption.
Qed.

Lemma length_store8 off v key : length (store8 off v key) = length key.
Proof. apply length_insert. Qed.

Lemma store8_middle front mid back off v :
  (off < length mid)%nat ->
  store8 (length front + off) v (front ++ mid ++ back)
  = front ++ store8 off v mid ++ back.
Proof.
  intros Hoff. unfold store8. rewrite insert_app_r. f_equal.
  now apply insert_app_l.
Qed.

Lemma lookup_middle (front mid back : list Z) off :
  (off < length mid)%nat ->
  (front ++ mid ++ back) !! (length front + off)%nat = mid !! off.
Proof.
  intros Hoff. rewrite lookup_app_r by lia.
  replace (length front + off - length front)%nat with off by lia.
  now apply lookup_app_l.
Qed.

Lemma memset_middle front mid back v :
  memset (length front) v (length mid) (front ++ mid ++ back)
  = front ++ replicate (length mid) (v mod 256) ++ back.
Proof.
  unfold memset.
  replace (length front) with (length front + 0)%nat at 1 by lia.
  rewrite list_inserts_app_r. f_equal.
  apply list_inserts_0_r. apply length_replicate.
Qed.

Lemma memset_whole mid v :
  memset 0 v (length mid) mid = replicate (length mid) (v mod 256).
Proof.
  pose proof (memset_middle [] mid [] v) as H. cbn [length app] in H.
  now rewrite !app_nil_r in H.
Qed.


(** Written at its place in a key, the header is the header image; the bytes
    before and behind stay, and what the header zone held is gone. *)
Lemma write_header_local front old back optState descInfo drawType gpu :
  length old = kHeaderSize ->
  write_header (length front) optState descInfo drawType gpu (front ++ old ++ back)
  = let* image := header_image optState descInfo drawType gpu in
    Ok (front ++ image ++ back).
Proof using layout_fields.
  intros Hold. destruct header_field_bounds as (Hnvpr & Hdst & Hfrag & Hcolor & Hcov).
  unfold header_image, write_header. cbv zeta. cbn [Nat.add].
  set (zeros := replicate kHeaderSize (0 mod 256)).
  assert (Hzeros : length zeros = kHeaderSize) by apply length_replicate.
  assert (Hplace : memset (length front) 0 kHeaderSize (front ++ old ++ back)
                   = front ++ zeros ++ back)
    by (unfold zeros; rewrite <- Hold; apply memset_middle).
  assert (Hwhole : memset 0 0 kHeaderSize (replicate kHeaderSize 0) = zeros).
  { pose proof (memset_whole (replicate kHeaderSize 0) 0) as H.
    now rewrite !length_replicate in H. }
  rewrite !Hplace, !Hwhole.
  destruct (pathRenderingSupport (caps gpu) && IsPathRenderingDrawType drawType);
    [destruct (hasGeometryProcessor optState)|]; cbn [sk_assert negb bind];
    try reflexivity;
    (destruct (fReadsDst descInfo);
     [destruct (bool_decide (is_Some (getDstCopy optState))
                || dstReadInShaderSupport (caps gpu))|];
     cbn [sk_assert bind]; try reflexivity; repeat first
       [ rewrite store8_middle by (rewrite ?length_store8, ?length_replicate; lia)
       | rewrite lookup_middle by (rewrite ?length_store8, ?length_replicate; lia) ];
     [match goal with
      | |- context [negb (default 0 ?x =? 0)] => destruct (negb (default 0 x =? 0))
      end; cbn [sk_assert bind]; try reflexivity|];
     destruct (fReadsFragPosition descInfo); repeat first
       [ rewrite store8_middle by (rewrite ?length_store8, ?length_replicate; lia)
       | rewrite lookup_middle by (rewrite ?length_store8, ?length_replicate; lia) ]; reflexivity).
Qed.

(** ** The header image *)

(** No two fields of the header share a byte. *)
Hypothesis layout_distinct : NoDup (header_fields layout).

Lemma header_fields_distinct :
  at_fUseNvpr layout <> at_fDstReadKey layout
  /\ at_fUseNvpr layout <> at_fFragPosKey layout
  /\ at_fUseNvpr layout <> at_fColorEffectCnt layout
  /\ at_fUseNvpr layout <> at_fCoverageEffectCnt layout
  /\ at_fDstReadKey layout <> at_fFragPosKey layout
  /\ at_fDstReadKey layout <> at_fColorEffectCnt layout
  /\ at_fDstReadKey layout <> at_fCoverageEffectCnt layout
  /\ at_fFragPosKey layout <> at_fColorEffectCnt layout
  /\ at_fFragPosKey layout <> at_fCoverageEffectCnt layout
  /\ at_fColorEffectCnt layout <> at_fCoverageEffectCnt layout.
Proof using layout_distinct.
  pose proof layout_distinct as Hnodup. unfold header_fields in Hnodup.
  rewrite !NoDup_cons, !not_elem_of_cons in Hnodup. destruct_and!.
  repeat split; assumption.
Qed.

Lemma lookup_store8_eq off v (key : list Z) :
  (off < length key)%nat -> store8 off v key !! off = Some (v mod 256).
Proof. intros Hoff. now apply list_lookup_insert_eq. Qed.

Lemma lookup_store8_ne off off' v (key : list Z) :
  off <> off' -> store8 off v key !! off' = key !! off'.
Proof. intros Hne. now apply list_lookup_insert_ne. Qed.

(** The bytes of a header image, field by field, and zero everywhere else. *)
Lemma header_image_bytes optState descInfo drawType gpu image :
  header_image optState descInfo drawType gpu = Ok image ->
  length image = kHeaderSize
  /\ image !! at_fUseNvpr layout
     = Some (if pathRenderingSupport (caps gpu) && IsPathRenderingDrawType drawType
             then 1 else 0)
  /\ image !! at_fDstReadKey layout
     = Some (if fReadsDst descInfo
             then KeyForDstRead (option_map texture (getDstCopy optState)) (glCaps gpu)
                  mod 256
             else 0)
  /\ (fReadsDst descInfo = true ->
      KeyForDstRead (option_map texture (getDstCopy optState)) (glCaps gpu) mod 256 <> 0)
  /\ image !! at_fFragPosKey layout
     = Some (if fReadsFragPosition descInfo
             then KeyForFragmentPosition (getRenderTarget optState) (glCaps gpu) mod 256
             else 0)
  /\ image !! at_fColorEffectCnt layout = Some (numColorStages optState mod 256)
  /\ image !! at_fCoverageEffectCnt layout = Some (numCoverageStages optState mod 256)
  /\ (forall i : nat, (i < kHeaderSize)%nat -> ~ In i (header_fields layout) ->
                      image !! i = Some 0).
Proof using layout_fields layout_distinct.
  destruct header_field_bounds as (Hnvpr & Hdst & Hfrag & Hcolor & Hcov).
  destruct header_fields_distinct
    as (N1 & N2 & N3 & N4 & N5 & N6 & N7 & N8 & N9 & N10).
  unfold header_image, write_header. cbv zeta. cbn [Nat.add].
  pose proof (memset_whole (replicate kHeaderSize 0) 0) as Hwhole.
  rewrite !length_replicate in Hwhole. rewrite Hwhole. clear Hwhole.
  change (0 mod 256) with 0.
  assert (Hpadding : forall i key,
            ~ In i (header_fields layout) ->
            forall v1 v2 v3 v4 v5,
              store8 (at_fCoverageEffectCnt layout) v1
                (store8 (at_fColorEffectCnt layout) v2
                   (store8 (at_fFragPosKey layout) v3
                      (store8 (at_fDstReadKey layout) v4
                         (store8 (at_fUseNvpr layout) v5 key)))) !! i
              = key !! i).
  { intros i key Hin v1 v2 v3 v4 v5. unfold header_fields in Hin. cbn [In] in Hin.
    rewrite !lookup_store8_ne by (intros Heq; apply Hin; auto 7). reflexivity. }
  destruct (pathRenderingSupport (caps gpu) && IsPathRenderingDrawType drawType);
    [destruct (hasGeometryProcessor optState)|]; cbn [sk_assert negb bind];
    try discriminate;
    (destruct (fReadsDst descInfo);
     [destruct (bool_decide (is_Some (getDstCopy optState))
                || dstReadInShaderSupport (caps gpu))|];
     cbn [sk_assert bind]; try discriminate;
     [rewrite lookup_store8_eq by (rewrite ?length_store8, ?length_replicate; lia);
      cbn [from_option id];
      destruct (Z.eqb_spec
                  (KeyForDstRead (option_map texture (getDstCopy optState)) (glCaps gpu)
                   mod 256) 0) as [Hzero | Hnonzero];
      cbn [sk_assert negb bind]; try discriminate|];
     destruct (fReadsFragPosition descInfo); intros [= <-];
     (split; [now rewrite !length_store8, length_replicate|]);
     repeat (split; [first [ now repeat first
                           [ rewrite lookup_store8_eq
                               by (rewrite ?length_store8, ?length_replicate; lia)
                           | rewrite lookup_store8_ne by congruence
                           | rewrite lookup_replicate_2 by lia ] | intros; congruence ]|]);
     intros i Hi Hin; rewrite Hpadding by exact Hin;
     now apply lookup_replicate_2).
Qed.

Lemma header_image_length optState descInfo drawType gpu image :
  header_image optState descInfo drawType gpu = Ok image -> length image = kHeaderSize.
Proof.
  unfold header_image, write_header. cbv zeta.
  destruct (pathRenderingSupport (caps gpu) && IsPathRenderingDrawType drawType);
    [destruct (sk_assert (negb (hasGeometryProcessor optState)) _)|];
    cbn [bind]; try discriminate;
    (destruct (fReadsDst descInfo);
     [destruct (sk_assert (bool_decide _ || _) _); cbn [bind]; try discriminate;
      destruct (sk_assert (negb _) _); cbn [bind]; try discriminate|];
     destruct (fReadsFragPosition descInfo); intros [= <-];
     unfold memset; now rewrite !length_store8, length_inserts, length_replicate).
Qed.

Lemma dst_read_source_ok optState gpu :
  is_Some (getDstCopy optState) \/ dstReadInShaderSupport (caps gpu) = true ->
  bool_decide (is_Some (getDstCopy optState)) || dstReadInShaderSupport (caps gpu) = true.
Proof.
  intros [Hcopy | Hsupport].
  - now rewrite (bool_decide_eq_true_2 _ Hcopy).
  - rewrite Hsupport. apply orb_true_r.
Qed.

(** With a destination read whose key is zero the header statements stop at
    the assertion on that key. *)
Lemma header_image_zero_dst_key optState descInfo drawType gpu :
  (pathRenderingSupport (caps gpu) && IsPathRenderingDrawType drawType = true ->
   hasGeometryProcessor optState = false) ->
  fReadsDst descInfo = true ->
  is_Some (getDstCopy optState) \/ dstReadInShaderSupport (caps gpu) = true ->
  KeyForDstRead (option_map texture (getDstCopy optState)) (glCaps gpu) mod 256 = 0 ->
  header_image optState descInfo drawType gpu = Abort (AssertionFailed ZeroDstReadKey).
Proof using layout_fields.
  intros Hnvpr Hreads Hsource Hzero.
  destruct header_field_bounds as (_ & Hdst & _).
  unfold header_image, write_header. cbv zeta. cbn [Nat.add].
  rewrite Hreads, (dst_read_source_ok _ _ Hsource).
  destruct (pathRenderingSupport (caps gpu) && IsPathRenderingDrawType drawType);
    [rewrite Hnvpr by reflexivity|]; cbn [sk_assert negb bind];
    rewrite lookup_store8_eq
      by (unfold memset; rewrite ?length_store8, ?length_inserts, ?length_replicate; lia);
    cbn [from_option id]; rewrite Hzero; reflexivity.
Qed.

(** The header statements end well when the three assertions hold; the
    fragment position plays no part in that. *)
Lemma header_image_succeeds optState descInfo drawType gpu :
  (pathRenderingSupport (caps gpu) && IsPathRenderingDrawType drawType = true ->
   hasGeometryProcessor optState = false) ->
  (fReadsDst descInfo = true ->
   (is_Some (getDstCopy optState) \/ dstReadInShaderSupport (caps gpu) = true)
   /\ KeyForDstRead (option_map texture (getDstCopy optState)) (glCaps gpu) mod 256 <> 0) ->
  exists image, header_image optState descInfo drawType gpu = Ok image.
Proof using layout_fields.
  intros Hnvpr Hdstread.
  destruct header_field_bounds as (_ & Hdst & _).
  unfold header_image, write_header. cbv zeta. cbn [Nat.add].
  destruct (pathRenderingSupport (caps gpu) && IsPathRenderingDrawType drawType);
    [rewrite Hnvpr by reflexivity|]; cbn [sk_assert negb bind];
    (destruct (fReadsDst descInfo);
     [destruct Hdstread as [Hsource Hnonzero]; [reflexivity|];
      rewrite (dst_read_source_ok _ _ Hsource); cbn [sk_assert bind];
      rewrite lookup_store8_eq
        by (unfold memset;
            rewrite ?length_store8, ?length_inserts, ?length_replicate; lia);
      cbn [from_option id]; apply Z.eqb_neq in Hnonzero; rewrite Hnonzero|];
     cbn [sk_assert negb bind]; eexists; reflexivity).
Qed.

(** The header statements end well only when their assertions hold. *)
Lemma header_image_asserted optState descInfo drawType gpu image :
  header_image optState descInfo drawType gpu = Ok image ->
  (pathRenderingSupport (caps gpu) && IsPathRenderingDrawType drawType = true ->
   hasGeometryProcessor optState = false)
  /\ (fReadsDst descInfo = true ->
      (is_Some (getDstCopy optState) \/ dstReadInShaderSupport (caps gpu) = true)
      /\ KeyForDstRead (option_map texture (getDstCopy optState)) (glCaps gpu) mod 256
         <> 0).
Proof using layout_fields.
  destruct header_field_bounds as (_ & Hdst & _).
  unfold header_image, write_header. cbv zeta. cbn [Nat.add]. intros Himage. split.
  - intros Hnvpr. rewrite Hnvpr in Himage.
    destruct (hasGeometryProcessor optState); [discriminate | reflexivity].
  - intros Hreads. rewrite Hreads in Himage.
    destruct (pathRenderingSupport (caps gpu) && IsPathRenderingDrawType drawType);
      [destruct (hasGeometryProcessor optState); [discriminate|]|];
      cbn [sk_assert negb bind] in Himage;
      (destruct (bool_decide (is_Some (getDstCopy optState))
                 || dstReadInShaderSupport (caps gpu)) eqn:Hsource;
       cbn [sk_assert bind] in Himage; [|discriminate];
       rewrite lookup_store8_eq in Himage
         by (unfold memset;
             rewrite ?length_store8, ?length_inserts, ?length_replicate; lia);
       cbn [from_option id] in Himage;
       destruct (Z.eqb_spec
                   (KeyForDstRead (option_map texture (getDstCopy optState)) (glCaps gpu)
                    mod 256) 0) as [Hzero | Hnonzero];
       cbn [sk_assert negb bind] in Himage; [discriminate|];
       split; [|exact Hnonzero];
       apply orb_true_iff in Hsource as [Hcopy | Hsupport];
       [left; exact (bool_decide_eq_true_1 _ Hcopy) | right; exact Hsupport]).
Qed.

(** ** The key of a successful [Build] *)

(** The processor keys start right behind the header. *)
Hypothesis layout_zones : kProcessorKeysOffset = (kHeaderOffset + kHeaderSize)%nat.

(** [finalize] does not read what the bytes before the header held (it
    overwrites them). *)
Hypothesis finalize_start :
  forall front front' rest : list Z,
    length front = kHeaderOffset -> length front' = kHeaderOffset ->
    finalize (front ++ rest) = finalize (front' ++ rest).

(** The key of a successful [Build]: the bytes [finalize] makes of the header
    image and the processor keys behind the words before the header. *)
Lemma Build_key_form optState descInfo drawType gpu uninit desc :
  Build optState descInfo drawType gpu uninit desc
  = let* r := processor_keys optState descInfo gpu in
    if negb (fst r) then Ok (false, {| fKey := [] |})
    else
      let* image := header_image optState descInfo drawType gpu in
      Ok (true, {| fKey := finalize (map uninit (seq 0 kHeaderOffset)
                                     ++ image ++ fData (snd r)) |}).
Proof using layout_fields layout_zones.
  rewrite Build_processor_keys.
  destruct (processor_keys optState descInfo gpu) as [[fits b]|f]; [|reflexivity].
  cbn [bind fst snd]. destruct fits; cbn [negb]; [|reflexivity].
  rewrite layout_zones, seq_app, map_app, <- app_assoc.
  set (front := map uninit (seq 0 kHeaderOffset)).
  replace kHeaderOffset with (length front) at 1
    by (unfold front; now rewrite length_map, length_seq).
  rewrite write_header_local by (now rewrite length_map, length_seq).
  destruct (header_image optState descInfo drawType gpu); reflexivity.
Qed.

(** Inputs that [get_meta_key] cannot tell apart stage by stage give the same
    result, whatever the reserved bytes and the descriptor held before. *)
Lemma Build_ext optState1 descInfo1 drawType1 gpu1 uninit1 desc1
    optState2 descInfo2 drawType2 gpu2 uninit2 desc2 :
  pipelines_agree (encoded_alike (glCaps gpu1))
    optState1 descInfo1 drawType1 gpu1 optState2 descInfo2 drawType2 gpu2 ->
  Build optState1 descInfo1 drawType1 gpu1 uninit1 desc1
  = Build optState2 descInfo2 drawType2 gpu2 uninit2 desc2.
Proof using layout_fields layout_zones finalize_start.
  intros Hagree. rewrite !Build_key_form.
  rewrite (processor_keys_ext _ _ _ _ _ _ _ _ Hagree).
  rewrite (header_image_ext _ _ _ _ _ _ _ _ _ Hagree).
  destruct (processor_keys optState2 descInfo2 gpu2) as [[fits b]|f]; [|reflexivity].
  cbn [bind fst snd]. destruct (negb fits); [reflexivity|].
  destruct (header_image optState2 descInfo2 drawType2 gpu2) as [image|f];
    [|reflexivity].
  cbn [bind]. do 2 f_equal. f_equal.
  apply finalize_start; now rewrite length_map, length_seq.
Qed.

(** ** Determinism and canonical keys *)

(** C1. [Build] is deterministic: for two inputs that are logically equal (the
    same capabilities, flags and kind of draw, and stage by stage the same
    class, private key, transforms and texture configurations) it gives the
    same result, hence on success keys of the same length and the same bytes,
    whatever the reserved bytes and the descriptor held before the call. *)
Theorem Build_deterministic
    (optState1 : GrOptDrawState) (descInfo1 : DescInfo) (drawType1 : DrawType)
    (gpu1 : GrGLGpu) (uninit1 : nat -> Z) (desc1 : GrProgramDesc)
    (optState2 : GrOptDrawState) (descInfo2 : DescInfo) (drawType2 : DrawType)
    (gpu2 : GrGLGpu) (uninit2 : nat -> Z) (desc2 : GrProgramDesc) :
  logically_equal optState1 descInfo1 drawType1 gpu1
                  optState2 descInfo2 drawType2 gpu2 ->
  Build optState1 descInfo1 drawType1 gpu1 uninit1 desc1
  = Build optState2 descInfo2 drawType2 gpu2 uninit2 desc2.
Proof using layout_fields layout_zones finalize_start.
  intros Hequal. apply Build_ext.
  eapply pipelines_agree_mono; [|exact Hequal].
  intros p1 p2. apply same_processor_encoded_alike.
Qed.

(** C8. Keys are canonical where no remap is needed: two inputs that differ
    only in the textures of their stages, none of which needs a remap, have the
    same key; with texture swizzling in hardware that is any two inputs that
    differ only in their textures, the texture key of every processor being 0
    whatever the formats. *)
Theorem Build_canonical_without_remap
    (optState1 : GrOptDrawState) (descInfo1 : DescInfo) (drawType1 : DrawType)
    (gpu1 : GrGLGpu) (uninit1 : nat -> Z) (desc1 : GrProgramDesc)
    (optState2 : GrOptDrawState) (descInfo2 : DescInfo) (drawType2 : DrawType)
    (gpu2 : GrGLGpu) (uninit2 : nat -> Z) (desc2 : GrProgramDesc) :
  (pipelines_agree (same_but_textures (glCaps gpu1))
     optState1 descInfo1 drawType1 gpu1 optState2 descInfo2 drawType2 gpu2 ->
   Build optState1 descInfo1 drawType1 gpu1 uninit1 desc1
   = Build optState2 descInfo2 drawType2 gpu2 uninit2 desc2)
  /\ (textureSwizzleSupport (glCaps gpu1) = true ->
      pipelines_agree (fun p1 p2 => classID p1 = classID p2)
        optState1 descInfo1 drawType1 gpu1 optState2 descInfo2 drawType2 gpu2 ->
      (forall proc, gen_texture_key proc (glCaps gpu1) = Ok 0)
      /\ Build optState1 descInfo1 drawType1 gpu1 uninit1 desc1
         = Build optState2 descInfo2 drawType2 gpu2 uninit2 desc2).
Proof using layout_fields layout_zones finalize_start.
  assert (Hno_remap :
    pipelines_agree (same_but_textures (glCaps gpu1))
      optState1 descInfo1 drawType1 gpu1 optState2 descInfo2 drawType2 gpu2 ->
    Build optState1 descInfo1 drawType1 gpu1 uninit1 desc1
    = Build optState2 descInfo2 drawType2 gpu2 uninit2 desc2).
  { intros Hagree. apply Build_ext.
    eapply pipelines_agree_mono; [|exact Hagree].
    intros p1 p2. apply same_but_textures_encoded_alike. }
  split; [exact Hno_remap|].
  intros Hsupport Hagree. split.
  - intros proc. now apply gen_texture_key_no_remap, hardware_swizzle_no_remap.
  - apply Hno_remap. eapply pipelines_agree_mono; [|exact Hagree].
    intros p1 p2 Hclass. split; [exact Hclass|].
    split; now apply hardware_swizzle_no_remap.
Qed.

(** ** The header of a built key *)

(** [finalize] leaves the header and the processor keys as they are. *)
Hypothesis finalize_keeps :
  forall key : list Z,
    (kHeaderOffset <= length key)%nat ->
    drop kHeaderOffset (finalize key) = drop kHeaderOffset key.

(** The header of a key, read at the header offset. *)
Lemma Build_header_zone optState descInfo drawType gpu uninit desc key :
  Build optState descInfo drawType gpu uninit desc = Ok (true, {| fKey := key |}) ->
  exists image b,
    processor_keys optState descInfo gpu = Ok (true, b)
    /\ header_image optState descInfo drawType gpu = Ok image
    /\ drop kHeaderOffset key = image ++ fData b.
Proof using layout_fields layout_zones finalize_keeps.
  rewrite Build_key_form.
  destruct (processor_keys optState descInfo gpu) as [[fits b]|f]; [|discriminate].
  cbn [bind fst snd]. destruct fits; cbn [negb]; [|discriminate].
  destruct (header_image optState descInfo drawType gpu) as [image|f]; [|discriminate].
  cbn [bind]. intros [= <-]. exists image, b. repeat split.
  rewrite finalize_keeps by (rewrite length_app, length_map, length_seq; lia).
  rewrite drop_app_length'; [reflexivity|]. now rewrite length_map, length_seq.
Qed.

(** C9 (as the code has it). After a successful [Build] the header zone holds
    what the header statements set: the path-rendering flag is 1 iff the
    capabilities support path rendering and the draw is a path-rendering draw;
    the destination-read byte is nonzero iff the reads-destination flag is set,
    and is then the key of the destination read; the fragment-position byte is
    zero when the reads-fragment-position flag is clear and otherwise what
    [KeyForFragmentPosition] gives; the two counts are those of the pipeline
    state, as one byte each; every other byte of the zone is zero.  A
    reads-destination flag with a zero key is a failed assertion; no assertion
    is tied to the fragment position: once the processor keys fit, [Build]
    succeeds whenever the path-rendering and destination-read assertions hold. *)
Theorem Build_header_contents
    (optState : GrOptDrawState) (descInfo : DescInfo) (drawType : DrawType)
    (gpu : GrGLGpu) (uninit : nat -> Z) (desc : GrProgramDesc) :
  let usesNvpr := pathRenderingSupport (caps gpu) && IsPathRenderingDrawType drawType in
  let dstReadKey :=
    KeyForDstRead (option_map texture (getDstCopy optState)) (glCaps gpu) mod 256 in
  let header_byte (key : list Z) (at_field : nat) :=
    key !! (kHeaderOffset + at_field)%nat in
  (forall key,
     Build optState descInfo drawType gpu uninit desc = Ok (true, {| fKey := key |}) ->
     header_byte key (at_fUseNvpr layout) = Some (if usesNvpr then 1 else 0)
     /\ (exists v, header_byte key (at_fDstReadKey layout) = Some v
                   /\ v = (if fReadsDst descInfo then dstReadKey else 0)
                   /\ (v <> 0 <-> fReadsDst descInfo = true))
     /\ header_byte key (at_fFragPosKey layout)
        = Some (if fReadsFragPosition descInfo
                then KeyForFragmentPosition (getRenderTarget optState) (glCaps gpu)
                     mod 256
                else 0)
     /\ header_byte key (at_fColorEffectCnt layout)
        = Some (numColorStages optState mod 256)
     /\ header_byte key (at_fCoverageEffectCnt layout)
        = Some (numCoverageStages optState mod 256)
     /\ (forall i : nat, (i < kHeaderSize)%nat -> ~ In i (header_fields layout) ->
                         header_byte key i = Some 0))
  /\ (forall b,
        processor_keys optState descInfo gpu = Ok (true, b) ->
        (usesNvpr = true -> hasGeometryProcessor optState = false) ->
        fReadsDst descInfo = true ->
        is_Some (getDstCopy optState) \/ dstReadInShaderSupport (caps gpu) = true ->
        dstReadKey = 0 ->
        Build optState descInfo drawType gpu uninit desc
        = Abort (AssertionFailed ZeroDstReadKey))
  /\ (forall b,
        processor_keys optState descInfo gpu = Ok (true, b) ->
        (usesNvpr = true -> hasGeometryProcessor optState = false) ->
        (fReadsDst descInfo = true ->
         (is_Some (getDstCopy optState) \/ dstReadInShaderSupport (caps gpu) = true)
         /\ dstReadKey <> 0) ->
        exists key,
          Build optState descInfo drawType gpu uninit desc
          = Ok (true, {| fKey := key |})).
Proof using layout_fields layout_zones layout_distinct finalize_keeps.
  cbv zeta. split; [|split].
  - intros key Hbuild.
    destruct (Build_header_zone _ _ _ _ _ _ _ Hbuild) as (image & b & _ & Himage & Hdrop).
    destruct (header_image_bytes _ _ _ _ _ Himage)
      as (Hlen & Hnvpr & Hdst & Hnonzero & Hfrag & Hcolor & Hcov & Hpad).
    destruct header_field_bounds as (B1 & B2 & B3 & B4 & B5).
    assert (Hbyte : forall i : nat, (i < kHeaderSize)%nat ->
                      key !! (kHeaderOffset + i)%nat = image !! i).
    { intros i Hi. rewrite <- lookup_drop, Hdrop. apply lookup_app_l. lia. }
    rewrite !Hbyte by assumption.
    split; [exact Hnvpr|]. split.
    { eexists. split; [exact Hdst|]. split; [reflexivity|].
      destruct (fReadsDst descInfo); split; auto; try discriminate; congruence. }
    repeat (split; [assumption|]).
    intros i Hi Hin. rewrite Hbyte by assumption. now apply Hpad.
  - intros b Hkeys Hnvpr Hreads Hsource Hzero.
    rewrite Build_key_form, Hkeys. cbn [bind fst snd negb].
    now rewrite header_image_zero_dst_key.
  - intros b Hkeys Hnvpr Hdstread.
    rewrite Build_key_form, Hkeys. cbn [bind fst snd negb].
    destruct (header_image_succeeds optState descInfo drawType gpu Hnvpr Hdstread)
      as [image Himage].
    rewrite Himage. cbn [bind]. eexists. reflexivity.
Qed.


(** ** The processor keys of a built key *)

(** The processor keys of a built key are what the key builder holds. *)
Lemma Build_processor_zone optState descInfo drawType gpu uninit desc key :
  Build optState descInfo drawType gpu uninit desc = Ok (true, {| fKey := key |}) ->
  exists b,
    processor_keys optState descInfo gpu = Ok (true, b)
    /\ drop kProcessorKeysOffset key = fData b
    /\ length key = (kProcessorKeysOffset + length (fData b))%nat.
Proof using layout_fields layout_zones finalize_keeps.
  intros Hbuild.
  destruct (Build_header_zone _ _ _ _ _ _ _ Hbuild) as (image & b & Hkeys & Himage & Hdrop).
  pose proof (header_image_length _ _ _ _ _ Himage) as Hlen.
  destruct header_field_bounds as (Hpos & _).
  exists b. split; [exact Hkeys|]. split.
  - rewrite layout_zones, <- drop_drop, Hdrop.
    now rewrite drop_app_length' by (symmetry; assumption).
  - apply (f_equal length) in Hdrop. rewrite length_drop, length_app in Hdrop. lia.
Qed.




(** X10. Keys tell pipelines of the same shape apart.  When two builds succeed
    with the same bytes behind the header, on pipelines whose private keys have
    the same sizes stage by stage, the pipelines have stage by stage the same
    class, the same texture key, the same transform key and private keys with
    the same 32-bit words. *)
Theorem Build_keys_tell_stages_apart
    (optState1 : GrOptDrawState) (descInfo1 : DescInfo) (drawType1 : DrawType)
    (gpu1 : GrGLGpu) (uninit1 : nat -> Z) (desc1 : GrProgramDesc) (key1 : list Z)
    (optState2 : GrOptDrawState) (descInfo2 : DescInfo) (drawType2 : DrawType)
    (gpu2 : GrGLGpu) (uninit2 : nat -> Z) (desc2 : GrProgramDesc) (key2 : list Z) :
  class_ids_32_bits optState1 ->
  class_ids_32_bits optState2 ->
  Build optState1 descInfo1 drawType1 gpu1 uninit1 desc1 = Ok (true, {| fKey := key1 |}) ->
  Build optState2 descInfo2 drawType2 gpu2 uninit2 desc2 = Ok (true, {| fKey := key2 |}) ->
  private_key_sizes optState1 gpu1 = private_key_sizes optState2 gpu2 ->
  drop kProcessorKeysOffset key1 = drop kProcessorKeysOffset key2 ->
  Forall2 (stage_keys_agree (glCaps gpu1) (glCaps gpu2))
    (pipeline_stages optState1 descInfo1 gpu1)
    (pipeline_stages optState2 descInfo2 gpu2).
Proof using layout_fields layout_zones finalize_keeps.
  intros Hclasses1 Hclasses2 Hbuild1 Hbuild2 Hsizes Hsame.
  destruct (Build_processor_zone _ _ _ _ _ _ _ Hbuild1) as (b1 & Hkeys1 & Hzone1 & _).
  destruct (Build_processor_zone _ _ _ _ _ _ _ Hbuild2) as (b2 & Hkeys2 & Hzone2 & _).
  destruct (processor_keys_laid_out _ _ _ _ Hclasses1 Hkeys1)
    as (stages1 & Hstages1 & _ & _ & Hdata1 & Hfit1 & Hroom1).
  destruct (processor_keys_laid_out _ _ _ _ Hclasses2 Hkeys2)
    as (stages2 & Hstages2 & _ & _ & Hdata2 & Hfit2 & _).
  apply (encodes_held_alike _ _ stages1 _ _ stages2 Hstages1 Hstages2).
  apply (stages_bytes_inj stages1 stages2 0); try assumption.
  - apply equal_sizes_equal_lengths.
    now rewrite (encodes_private_key_sizes _ _ _ _ Hstages1),
      (encodes_private_key_sizes _ _ _ _ Hstages2).
  - rewrite <- Hdata1. cbn [Nat.add]. exact Hroom1.
  - congruence.
Qed.

(** X11. [Build] returns, with a key or without, when no shift of the key
    encoders is undefined and the assertions of the header hold: a
    path-rendering draw on capabilities that support it has no geometry
    processor, and a destination read has a source and a key that is not
    zero. *)
Theorem Build_returns
    (optState : GrOptDrawState) (descInfo : DescInfo) (drawType : DrawType)
    (gpu : GrGLGpu) (uninit : nat -> Z) (desc : GrProgramDesc) :
  shifts_defined optState gpu ->
  (pathRenderingSupport (caps gpu) && IsPathRenderingDrawType drawType = true ->
   hasGeometryProcessor optState = false) ->
  (fReadsDst descInfo = true ->
   (is_Some (getDstCopy optState) \/ dstReadInShaderSupport (caps gpu) = true)
   /\ KeyForDstRead (option_map texture (getDstCopy optState)) (glCaps gpu) mod 256 <> 0) ->
  exists fits key,
    Build optState descInfo drawType gpu uninit desc = Ok (fits, {| fKey := key |})
    /\ (fits = false -> key = []).
Proof using layout_fields layout_zones.
  intros Hshifts Hnvpr Hdstread. rewrite Build_key_form.
  destruct (processor_keys_returns optState descInfo gpu Hshifts) as [[fits b] Hkeys].
  rewrite Hkeys. cbn [bind fst snd]. destruct fits; cbn [negb].
  - destruct (header_image_succeeds optState descInfo drawType gpu Hnvpr Hdstread)
      as [image Himage].
    rewrite Himage. cbn [bind]. do 2 eexists. split; [reflexivity | discriminate].
  - do 2 eexists. split; reflexivity.
Qed.

(** X12. What a built key tells of its input, the assertions being compiled
    in: a path-rendering draw on capabilities that support it has no geometry
    processor, and a destination read has a source and a key that is not
    zero. *)
Theorem Build_success_conditions
    (optState : GrOptDrawState) (descInfo : DescInfo) (drawType : DrawType)
    (gpu : GrGLGpu) (uninit : nat -> Z) (desc : GrProgramDesc) (d : GrProgramDesc) :
  Build optState descInfo drawType gpu uninit desc = Ok (true, d) ->
  (pathRenderingSupport (caps gpu) && IsPathRenderingDrawType drawType = true ->
   hasGeometryProcessor optState = false)
  /\ (fReadsDst descInfo = true ->
      (is_Some (getDstCopy optState) \/ dstReadInShaderSupport (caps gpu) = true)
      /\ KeyForDstRead (option_map texture (getDstCopy optState)) (glCaps gpu) mod 256
         <> 0).
Proof using layout_fields layout_zones.
  rewrite Build_key_form.
  destruct (processor_keys optState descInfo gpu) as [[fits b]|f]; [|discriminate].
  cbn [bind fst snd]. destruct fits; cbn [negb]; [|discriminate].
  destruct (header_image optState descInfo drawType gpu) as [image|f] eqn:Himage;
    [|discriminate].
  intros _. exact (header_image_asserted _ _ _ _ _ Himage).
Qed.

End Collaborators.

(** ** The properties on the sample pipelines *)

Local Abbreviation demo_Build :=
  (Build demo_kA demo_kRGB demo_ComponentMask 8%nat 8%nat 16%nat demo_layout
         demo_IsPathRendering demo_KeyForDstRead demo_KeyForFragmentPosition
         demo_finalize).

Lemma demo_layout_fields :
  Forall (fun at_field => (at_field < 8)%nat) (header_fields demo_layout).
Proof. unfold header_fields, demo_layout. cbn. repeat constructor; lia. Defined.

Lemma demo_layout_distinct : NoDup (header_fields demo_layout).
Proof.
  unfold header_fields, demo_layout. cbn.
  repeat (apply NoDup_cons_2; [rewrite ?elem_of_cons, elem_of_nil; lia|]).
  apply NoDup_nil_2.
Defined.

Lemma demo_finalize_start (front front' rest : list Z) :
  length front = 8%nat -> length front' = 8%nat ->
  demo_finalize (front ++ rest) = demo_finalize (front' ++ rest).
Proof.
  intros Hfront Hfront'. unfold demo_finalize.
  rewrite !length_app, Hfront, Hfront'.
  now rewrite !drop_app_length' by (symmetry; assumption).
Defined.

Lemma demo_finalize_keeps (key : list Z) :
  (8 <= length key)%nat -> drop 8 (demo_finalize key) = drop 8 key.
Proof.
  intros _. unfold demo_finalize. rewrite app_assoc.
  now rewrite (drop_app_length' (le32 _ ++ le32 _)).
Defined.

Lemma demo_twin_logically_equal :
  logically_equal demo_ComponentMask demo_IsPathRendering
    demo_optState demo_descInfo 0 demo_gpu
    demo_optState_twin demo_descInfo 1 demo_gpu.
Proof.
  unfold logically_equal, pipelines_agree, same_processor.
  repeat split; try reflexivity.
  constructor; [|constructor].
  unfold same_fragment_stage, same_processor. repeat split; try reflexivity.
  intros t Ht. cbn in Ht. destruct t; [reflexivity | lia].
Defined.

(** The sample pipeline and its twin, in two draws of different types that are
    not path rendering, over different reserved bytes and descriptors, get the
    same key. *)
Lemma Build_deterministic_on_twins :
  logically_equal demo_ComponentMask demo_IsPathRendering
    demo_optState demo_descInfo 0 demo_gpu
    demo_optState_twin demo_descInfo 1 demo_gpu
  /\ demo_Build demo_optState demo_descInfo 0 demo_gpu demo_uninit {| fKey := [] |}
     = demo_Build demo_optState_twin demo_descInfo 1 demo_gpu (fun _ => 3)
         {| fKey := [9] |}.
Proof.
  split; [exact demo_twin_logically_equal|].
  apply (Build_deterministic demo_kA demo_kRGB demo_ComponentMask 8 8 16 demo_layout
           demo_IsPathRendering demo_KeyForDstRead demo_KeyForFragmentPosition
           demo_finalize demo_layout_fields eq_refl demo_finalize_start).
  exact demo_twin_logically_equal.
Defined.

(** On the sample capabilities (no hardware swizzle, alpha read as red) every
    row of the truth table is met by some masks. *)
Lemma swizzle_remap_rows :
  swizzle_requires_alpha_remapping demo_kA demo_kRGB demo_caps_swizzle 8 8 = false
  /\ swizzle_requires_alpha_remapping demo_kA demo_kRGB demo_caps 8 8 = true
  /\ swizzle_requires_alpha_remapping demo_kA demo_kRGB demo_caps 8 1 = true
  /\ swizzle_requires_alpha_remapping demo_kA demo_kRGB demo_caps 15 1 = false.
Proof.
  pose proof (swizzle_remap_truth_table demo_kA demo_kRGB) as Htable. cbv zeta in Htable.
  split; [exact (proj1 (Htable demo_caps_swizzle 8 8) eq_refl)|].
  split.
  { destruct (proj1 (proj2 (Htable demo_caps 8 8)) eq_refl eq_refl) as (Halpha & _).
    apply Halpha; [reflexivity | discriminate]. }
  split.
  { destruct (proj1 (proj2 (Htable demo_caps 8 1)) eq_refl eq_refl) as (_ & Hrgb & _).
    apply Hrgb. discriminate. }
  apply (proj2 (proj2 (Htable demo_caps 15 1))). discriminate.
Defined.

(** A meta-key on the sample fragment stage: class 3, transform key 8, behind
    a private key of one word. *)
Lemma meta_key_contract_on_sample :
  (0 <= 8 < 2 ^ 32)
  /\ exists b',
       get_meta_key demo_kA demo_kRGB demo_ComponentMask (no_textures 3) demo_caps 8
         {| fData := [0; 0; 0; 0]; fCount := 1 |} = Ok (true, b')
       /\ fData b' = [0; 0; 0; 0] ++ le32 8 ++ le32 (3 * 2 ^ 16 + 4).
Proof.
  split; [lia|].
  destruct (meta_key_contract demo_kA demo_kRGB demo_ComponentMask (no_textures 3)
              demo_caps 8 {| fData := [0; 0; 0; 0]; fCount := 1 |} 0)
    as (fits & b' & Hcall & _ & _ & Hfits);
    [lia | cbn; lia | cbn; lia | reflexivity |].
  assert (Hok : fits = true) by (vm_compute in Hcall; congruence).
  exists b'. split; [now rewrite Hcall, Hok|].
  destruct (Hfits Hok) as [Hdata _]. exact Hdata.
Defined.



(** Six device transforms of high precision: a key of 30 bits. *)
Lemma six_transforms_have_a_key :
  (numTransforms (processor (demo_stage 3 (replicate 6 device_high))) <= 6)%nat
  /\ exists totalKey,
       gen_transform_key (demo_stage 3 (replicate 6 device_high)) false = Ok totalKey.
Proof.
  split; [cbn; lia|].
  apply (transform_key_total_within_capacity
           (demo_stage 3 (replicate 6 device_high)) false).
  cbn. lia.
Defined.

(** Three transforms, the second from device coordinates at high precision:
    its field, 20, is read back at bit 5 of the key, the or of the three
    shifted fields.  Seven transforms, the seventh alike: of its field the key
    keeps the two low bits, which are clear. *)
Lemma transform_fields_of_sample_stages :
  (exists totalKey,
     gen_transform_key (demo_stage 3 [local_low; device_high; local_low]) false
     = Ok totalKey
     /\ totalKey = 8 + 20 * 2 ^ 5 + 8 * 2 ^ 10
     /\ transform_key_field totalKey 1 = 20)
  /\ (exists totalKey,
        gen_transform_key (demo_stage 3 (replicate 6 local_low ++ [device_high])) true
        = Ok totalKey
        /\ transform_key_field totalKey 6 = 0).
Proof.
  split.
  - destruct (transform_key_field_encoding
                (demo_stage 3 [local_low; device_high; local_low]) false 1 device_high)
      as (_ & totalKey & Hkey & Hor & Hlow & _); [cbn; lia | reflexivity |].
    exists totalKey. split; [exact Hkey|].
    split; [rewrite Hor; vm_compute; reflexivity | apply Hlow; lia].
  - destruct (transform_key_field_encoding
                (demo_stage 3 (replicate 6 local_low ++ [device_high])) true 6 device_high)
      as (_ & totalKey & Hkey & _ & _ & Hseventh); [cbn; lia | reflexivity |].
    exists totalKey. split; [exact Hkey | exact (Hseventh eq_refl)].
Defined.

(** Six transforms are read back whole; with a seventh the encoder still
    returns a key, which the meta-key has no room for. *)
Lemma capacity_boundary_on_samples :
  (exists totalKey,
     gen_transform_key (demo_stage 3 (replicate 6 device_high)) false = Ok totalKey
     /\ transform_key_field totalKey 5 = 20)
  /\ gen_transform_key (demo_stage 3 (replicate 7 device_high)) false = Ok 692736660
  /\ exists totalKey,
       gen_transform_key (demo_stage 3 (replicate 7 device_high)) false = Ok totalKey
       /\ get_meta_key demo_kA demo_kRGB demo_ComponentMask (no_textures 3) demo_caps
            totalKey (new_GrProcessorKeyBuilder [])
          = Ok (false, new_GrProcessorKeyBuilder []).
Proof.
  split; [|split].
  - destruct (proj1 (transform_key_capacity_boundary demo_kA demo_kRGB demo_ComponentMask
                       (demo_stage 3 (replicate 6 device_high)) false) eq_refl)
      as (totalKey & Hkey & Hfield & _).
    exists totalKey. split; [exact Hkey|].
    exact (Hfield 5%nat device_high eq_refl).
  - exact (proj1 (proj2 (transform_key_capacity_boundary
                           demo_kA demo_kRGB demo_ComponentMask
                           (demo_stage 3 (replicate 7 device_high)) false))
             device_high eq_refl eq_refl).
  - destruct (proj2 (proj2 (transform_key_capacity_boundary
                              demo_kA demo_kRGB demo_ComponentMask
                              (demo_stage 3 (replicate 7 device_high)) false)))
      as (totalKey & Hkey & Hmeta); [cbn; lia|].
    exists totalKey. split; [exact Hkey|].
    apply (Hmeta (no_textures 3) demo_caps 0); [reflexivity | | |].
    + cbn. change (2 ^ 32) with 4294967296. lia.
    + cbn. lia.
    + vm_compute in Hkey. injection Hkey as <-. reflexivity.
Defined.

(** Seven transforms: the overlap assertion stays silent, and the key is the
    key of the first six, the seventh having lost all the bits it had set. *)
Lemma seven_transforms_pass_the_overlap_assertion :
  numTransforms (processor (demo_stage 3 (replicate 7 device_high))) = 7%nat
  /\ gen_transform_key (demo_stage 3 (replicate 7 device_high)) false
     <> Abort (AssertionFailed TransformKeysOverlap)
  /\ gen_transform_key (demo_stage 3 (replicate 7 device_high)) false
     = gen_transform_key (demo_stage 3 (replicate 6 device_high)) false.
Proof.
  split; [reflexivity|]. split; [vm_compute; discriminate | vm_compute; reflexivity].
Qed.

(** A fragment stage whose class identity needs 17 bits: no key is left. *)
Lemma Build_fails_on_wide_class :
  demo_Build demo_optState_wide_class demo_descInfo 0 demo_gpu demo_uninit
    {| fKey := [1; 2; 3] |}
  = Ok (false, {| fKey := [] |}).
Proof.
  pose proof (Build_failure_discards_key demo_kA demo_kRGB demo_ComponentMask
                8 8 16 demo_layout demo_IsPathRendering demo_KeyForDstRead
                demo_KeyForFragmentPosition demo_finalize demo_optState_wide_class
                demo_descInfo 0 demo_gpu demo_uninit {| fKey := [1; 2; 3] |})
    as Hfailure.
  cbv zeta in Hfailure. destruct Hfailure as (_ & _ & Hstage & _).
  eapply (Hstage _ [] (demo_stage 0x10000 [local_low]) []); reflexivity.
Defined.

(** With texture swizzling in hardware, an alpha-only texture and two textures
    of four channels give the same key. *)
Lemma Build_canonical_on_textures :
  textureSwizzleSupport (glCaps demo_gpu_swizzle) = true
  /\ demo_Build (demo_textured [alpha_access]) demo_descInfo_reads 4 demo_gpu_swizzle
       demo_uninit {| fKey := [] |}
     = demo_Build (demo_textured [rgba_access; rgba_access]) demo_descInfo_reads 4
         demo_gpu_swizzle (fun _ => 3) {| fKey := [9] |}.
Proof.
  split; [reflexivity|].
  apply (proj2 (Build_canonical_without_remap demo_kA demo_kRGB demo_ComponentMask
                  8 8 16 demo_layout demo_IsPathRendering demo_KeyForDstRead
                  demo_KeyForFragmentPosition demo_finalize demo_layout_fields eq_refl
                  demo_finalize_start
                  (demo_textured [alpha_access]) demo_descInfo_reads 4 demo_gpu_swizzle
                  demo_uninit {| fKey := [] |}
                  (demo_textured [rgba_access; rgba_access]) demo_descInfo_reads 4
                  demo_gpu_swizzle (fun _ => 3) {| fKey := [9] |}));
    [reflexivity|].
  unfold pipelines_agree. repeat split; try reflexivity.
  constructor; [|constructor]. unfold same_fragment_stage. repeat split; reflexivity.
Defined.

(** A path-rendering draw that reads the destination and the fragment
    position: the header of its key. *)
Lemma header_of_sample_key :
  exists key,
    demo_Build (demo_textured [rgba_access]) demo_descInfo_reads 4 demo_gpu
      demo_uninit {| fKey := [] |} = Ok (true, {| fKey := key |})
    /\ key !! (8 + at_fUseNvpr demo_layout)%nat = Some 1
    /\ key !! (8 + at_fFragPosKey demo_layout)%nat = Some 2
    /\ key !! (8 + at_fColorEffectCnt demo_layout)%nat = Some 1
    /\ key !! (8 + 7)%nat = Some 0.
Proof.
  eexists. split; [vm_compute; reflexivity|].
  pose proof (Build_header_contents demo_kA demo_kRGB demo_ComponentMask
                8 8 16 demo_layout demo_IsPathRendering demo_KeyForDstRead
                demo_KeyForFragmentPosition demo_finalize demo_layout_fields
                demo_layout_distinct eq_refl demo_finalize_keeps
                (demo_textured [rgba_access]) demo_descInfo_reads 4 demo_gpu
                demo_uninit {| fKey := [] |}) as Hheader.
  cbv zeta in Hheader. destruct Hheader as (Hzone & _).
  destruct (Hzone _ eq_refl) as (Hnvpr & _ & Hfrag & Hcolor & _ & Hpadding).
  split; [exact Hnvpr|]. split; [exact Hfrag|]. split; [exact Hcolor|].
  apply Hpadding; [lia|]. cbn. lia.
Defined.

(** A draw that reads the fragment position, with a fragment position key of
    0: no assertion fires, [Build] succeeds and stores the 0. *)
Lemma zero_fragment_position_key_is_not_asserted :
  fReadsFragPosition demo_descInfo_reads = true
  /\ exists key,
       Build demo_kA demo_kRGB demo_ComponentMask 8 8 16 demo_layout
         demo_IsPathRendering demo_KeyForDstRead (fun _ _ => 0) demo_finalize
         (demo_textured []) demo_descInfo_reads 0 demo_gpu demo_uninit {| fKey := [] |}
       = Ok (true, {| fKey := key |})
       /\ key !! (8 + at_fFragPosKey demo_layout)%nat = Some 0.
Proof.
  split; [reflexivity|]. eexists. split; [vm_compute; reflexivity | reflexivity].
Qed.


(** ** The further properties on the sample pipelines *)

Lemma demo_two_textures_remaps_below_32 :
  remaps_below_32 demo_kA demo_kRGB demo_ComponentMask demo_caps
    (textureAccesses demo_two_textures).
Proof.
  intros t access Ht Hbound. apply lookup_lt_Some in Ht. cbn in Ht. lia.
Defined.

(** The texture key of a processor that reads an alpha-only texture and then
    one of four channels is 1: the first needs a remap, the second none. *)
Lemma texture_key_bits_of_sample :
  exists textureKey,
    gen_texture_key demo_kA demo_kRGB demo_ComponentMask demo_two_textures demo_caps
    = Ok textureKey
    /\ Z.testbit textureKey 0 = true
    /\ Z.testbit textureKey 1 = false.
Proof.
  destruct (proj1 (gen_texture_key_bits demo_kA demo_kRGB demo_ComponentMask
                     demo_two_textures demo_caps)
              demo_two_textures_remaps_below_32)
    as (textureKey & Hkey & _ & Hbits).
  exists textureKey. split; [exact Hkey|].
  split; [exact (Hbits 0%nat) | exact (Hbits 1%nat)].
Defined.

(** Its two textures are within the 16 the meta-key has room for. *)
Lemma texture_key_budget_on_sample :
  (numTextures demo_two_textures <= 16)%nat
  /\ exists textureKey,
       gen_texture_key demo_kA demo_kRGB demo_ComponentMask demo_two_textures demo_caps
       = Ok textureKey
       /\ 0 <= textureKey <= SK_MaxU16.
Proof.
  assert (Hcount : (numTextures demo_two_textures <= 16)%nat) by (cbn; lia).
  split; [exact Hcount|].
  exact (proj1 (texture_key_budget demo_kA demo_kRGB demo_ComponentMask
                  demo_two_textures demo_caps) Hcount).
Defined.

(** Four local transforms of low precision fit the meta-key with explicit local
    coordinates. *)
Lemma transform_key_budget_on_sample :
  (numTransforms (processor (demo_stage 3 (replicate 4 local_low))) <= 6)%nat
  /\ exists transformKey,
       gen_transform_key (demo_stage 3 (replicate 4 local_low)) true = Ok transformKey
       /\ transformKey <= SK_MaxU16.
Proof.
  assert (Hcount : (numTransforms (processor (demo_stage 3 (replicate 4 local_low)))
                    <= 6)%nat) by (cbn; lia).
  split; [exact Hcount|].
  destruct (transform_key_budget demo_kA demo_kRGB demo_ComponentMask
              (demo_stage 3 (replicate 4 local_low)) true Hcount)
    as (transformKey & Hkey & _ & Hfits & _).
  exists transformKey. split; [exact Hkey|].
  apply Hfits. intros t coordTransform Ht _.
  destruct t as [|[|[|[|t]]]]; try discriminate; injection Ht as <-;
    repeat split; reflexivity.
Defined.

Lemma demo_device_sourced_only : device_sourced_only demo_optState_device.
Proof. repeat constructor. Defined.

(** The pipeline with the device transform gets one key, with and without
    explicit local coordinates. *)
Lemma Build_ignores_local_coords_flag_on_sample :
  device_sourced_only demo_optState_device
  /\ demo_Build demo_optState_device demo_descInfo 0 demo_gpu demo_uninit {| fKey := [] |}
     = demo_Build demo_optState_device demo_descInfo_local 0 demo_gpu demo_uninit
         {| fKey := [] |}.
Proof.
  split; [exact demo_device_sourced_only|].
  apply (Build_ignores_local_coords_flag demo_kA demo_kRGB demo_ComponentMask
           8 8 16 demo_layout demo_IsPathRendering demo_KeyForDstRead
           demo_KeyForFragmentPosition demo_finalize);
    [exact demo_device_sourced_only | reflexivity | reflexivity].
Defined.

(** A path-rendering draw with a geometry processor fails the first header
    assertion. *)
Lemma nvpr_with_geometry_processor_on_sample :
  Build demo_kA demo_kRGB demo_ComponentMask 8 8 16 demo_layout demo_IsPathRendering
    demo_KeyForDstRead demo_KeyForFragmentPosition demo_finalize
    {| getPrimitiveProcessor := demo_primProc;
       getBatchTracker := {| batchData := [] |};
       fragmentStages := [];
       getXferProcessor := demo_xp;
       hasGeometryProcessor := true;
       getDstCopy := None;
       getRenderTarget := {| renderTargetID := 0 |};
       numColorStages := 0;
       numCoverageStages := 0 |}
    demo_descInfo 4 demo_gpu demo_uninit {| fKey := [] |}
  = Abort (AssertionFailed NvprWithGeometryProcessor).
Proof.
  pose proof (Build_header_assertions demo_kA demo_kRGB demo_ComponentMask
                8 8 16 demo_layout demo_IsPathRendering demo_KeyForDstRead
                demo_KeyForFragmentPosition demo_finalize
                {| getPrimitiveProcessor := demo_primProc;
                   getBatchTracker := {| batchData := [] |};
                   fragmentStages := [];
                   getXferProcessor := demo_xp;
                   hasGeometryProcessor := true;
                   getDstCopy := None;
                   getRenderTarget := {| renderTargetID := 0 |};
                   numColorStages := 0;
                   numCoverageStages := 0 |}
                demo_descInfo 4 demo_gpu demo_uninit {| fKey := [] |}) as Hasserts.
  cbv zeta in Hasserts. destruct Hasserts as (_ & _ & Hnvpr & _).
  eapply Hnvpr; reflexivity.
Defined.


Lemma demo_class_ids_32_bits : class_ids_32_bits demo_optState.
Proof.
  cbv [class_ids_32_bits demo_optState demo_primProc demo_xp demo_stage no_textures
       getPrimitiveProcessor pp_proc classID fragmentStages getXferProcessor xp_proc
       fp_proc processor].
  change (2 ^ 32) with 4294967296.
  split; [lia|]. split; [|lia]. constructor; [lia | constructor].
Defined.



Lemma demo_twin_class_ids_32_bits : class_ids_32_bits demo_optState_twin.
Proof.
  cbv [class_ids_32_bits demo_optState_twin demo_primProc demo_xp demo_stage
       no_textures getPrimitiveProcessor pp_proc classID fragmentStages
       getXferProcessor xp_proc fp_proc processor].
  change (2 ^ 32) with 4294967296.
  split; [lia|]. split; [|lia]. constructor; [lia | constructor].
Defined.

(** The sample pipeline and its twin get the same key, and agree stage by
    stage. *)
Lemma twins_agree_stage_by_stage :
  Forall2 (stage_keys_agree demo_kA demo_kRGB demo_ComponentMask
             (glCaps demo_gpu) (glCaps demo_gpu))
    (pipeline_stages demo_optState demo_descInfo demo_gpu)
    (pipeline_stages demo_optState_twin demo_descInfo demo_gpu).
Proof.
  apply (Build_keys_tell_stages_apart demo_kA demo_kRGB demo_ComponentMask
           8 8 16 demo_layout demo_IsPathRendering demo_KeyForDstRead
           demo_KeyForFragmentPosition demo_finalize demo_layout_fields eq_refl
           demo_finalize_keeps
           demo_optState demo_descInfo 0 demo_gpu demo_uninit {| fKey := [] |} _
           demo_optState_twin demo_descInfo 1 demo_gpu (fun _ => 3) {| fKey := [9] |} _
           demo_class_ids_32_bits demo_twin_class_ids_32_bits eq_refl eq_refl eq_refl eq_refl).
Defined.

Lemma demo_shifts_defined :
  shifts_defined demo_kA demo_kRGB demo_ComponentMask demo_optState demo_gpu.
Proof.
  split; [|split].
  - intros t access Ht. discriminate Ht.
  - constructor; [|constructor]. split; [cbn; lia|].
    intros t access Ht. discriminate Ht.
  - intros t access Ht. discriminate Ht.
Defined.

(** The sample pipeline has no undefined shift and no false assertion: [Build]
    returns. *)
Lemma Build_returns_on_sample :
  exists fits key,
    demo_Build demo_optState demo_descInfo 0 demo_gpu demo_uninit {| fKey := [] |}
    = Ok (fits, {| fKey := key |}).
Proof.
  destruct (Build_returns demo_kA demo_kRGB demo_ComponentMask
              8 8 16 demo_layout demo_IsPathRendering demo_KeyForDstRead
              demo_KeyForFragmentPosition demo_finalize demo_layout_fields eq_refl
              demo_optState demo_descInfo 0 demo_gpu demo_uninit {| fKey := [] |}
              demo_shifts_defined)
    as (fits & key & Hbuild & _).
  - intros Hnvpr. reflexivity.
  - intros Hreads. discriminate Hreads.
  - exists fits, key. exact Hbuild.
Defined.

(** Outside a path-rendering draw, without a destination read or a read of the
    fragment position, the geometry processor flag, the copy of the destination
    and the render target do not reach the key. *)
Lemma Build_canonical_on_unread_sample :
  demo_Build demo_optState demo_descInfo 0 demo_gpu demo_uninit {| fKey := [] |}
  = demo_Build demo_optState_unread demo_descInfo 1 demo_gpu demo_uninit
      {| fKey := [] |}.
Proof.
  apply (Build_canonical_in_unread_inputs demo_kA demo_kRGB demo_ComponentMask
           8 8 16 demo_layout demo_IsPathRendering demo_KeyForDstRead
           demo_KeyForFragmentPosition demo_finalize).
  unfold same_but_unread. repeat split; try reflexivity; discriminate.
Defined.

(** A path-rendering draw that reads the destination and gets a key: it had
    no geometry processor, and its destination read a source and a key. *)
Lemma success_conditions_on_sample :
  exists d,
    demo_Build (demo_textured [rgba_access]) demo_descInfo_reads 4 demo_gpu
      demo_uninit {| fKey := [] |} = Ok (true, d)
    /\ hasGeometryProcessor (demo_textured [rgba_access]) = false
    /\ demo_KeyForDstRead
         (option_map texture (getDstCopy (demo_textured [rgba_access])))
         (glCaps demo_gpu) mod 256 <> 0.
Proof.
  eexists. split; [vm_compute; reflexivity|].
  destruct (Build_success_conditions demo_kA demo_kRGB demo_ComponentMask
              8 8 16 demo_layout demo_IsPathRendering demo_KeyForDstRead
              demo_KeyForFragmentPosition demo_finalize demo_layout_fields eq_refl
              (demo_textured [rgba_access]) demo_descInfo_reads 4 demo_gpu demo_uninit
              {| fKey := [] |} _ eq_refl) as [Hnvpr Hdst].
  split; [exact (Hnvpr eq_refl) | exact (proj2 (Hdst eq_refl))].
Defined.
